(** * short-url: the URL shortener backend

    A shallow embedding of [url-shortener-backend/server.js] (the Express
    routes and the [isValidUrl] helper) together with a model of the link
    service the routes call.  The routes are written against an interface
    ([UrlService]) that mirrors the functions [server.js] imports from
    [./urlService]; the service itself is given once as an in-memory
    table. *)

From Stdlib Require Import String Ascii List ZArith Bool Lia DecimalString.
Import ListNotations.
Local Open Scope Z_scope.
Local Open Scope string_scope.

(* ================================================================= *)
(** ** Strings as JavaScript uses them *)

Definition dq : string := String (ascii_of_nat 34) EmptyString.
Definition nl : string := String (ascii_of_nat 10) EmptyString.

(** [lines] joins the lines of a template literal, each one followed by a
    line feed. *)
Fixpoint lines (ls : list string) : string :=
  match ls with
  | nil => EmptyString
  | l :: rest => l ++ nl ++ lines rest
  end.

(** [String.prototype.includes]: [pat] occurs somewhere in [s]. *)
Fixpoint includes (s pat : string) : bool :=
  prefix pat s ||
  match s with
  | EmptyString => false
  | String _ s' => includes s' pat
  end.

(** The one-byte white space of [String.prototype.trim]: TAB, LF, VT, FF,
    CR and SPACE. *)
Definition is_space (c : ascii) : bool :=
  let n := nat_of_ascii c in
  ((9 <=? n) && (n <=? 13))%nat || (n =? 32)%nat.

(** U+00A0 in UTF-8. *)
Definition is_space2 (a b : ascii) : bool :=
  ((nat_of_ascii a =? 194) && (nat_of_ascii b =? 160))%nat.

(** The three-byte white space in UTF-8: U+1680, U+2000 to U+200A, U+2028,
    U+2029, U+202F, U+205F, U+3000 and U+FEFF. *)
Definition is_space3 (a b c : ascii) : bool :=
  let x := nat_of_ascii a in
  let y := nat_of_ascii b in
  let z := nat_of_ascii c in
  (((x =? 225) && (y =? 154) && (z =? 128))
   || ((x =? 226) && (y =? 128)
       && (((128 <=? z) && (z <=? 138)) || (z =? 168) || (z =? 169) || (z =? 175)))
   || ((x =? 226) && (y =? 129) && (z =? 159))
   || ((x =? 227) && (y =? 128) && (z =? 128))
   || ((x =? 239) && (y =? 187) && (z =? 191)))%nat.

(** What is left of [s] after one leading white-space character, if it
    starts with one. *)
Definition strip1 (s : string) : option string :=
  match s with
  | EmptyString => None
  | String a r1 =>
      if is_space a then Some r1
      else
        match r1 with
        | EmptyString => None
        | String b r2 =>
            if is_space2 a b then Some r2
            else
              match r2 with
              | EmptyString => None
              | String c r3 => if is_space3 a b c then Some r3 else None
              end
        end
  end.

Fixpoint trimStart (s : string) : string :=
  match s with
  | EmptyString => EmptyString
  | String a r1 =>
      if is_space a then trimStart r1
      else
        match r1 with
        | EmptyString => s
        | String b r2 =>
            if is_space2 a b then trimStart r2
            else
              match r2 with
              | EmptyString => s
              | String c r3 => if is_space3 a b c then trimStart r3 else s
              end
        end
  end.

Fixpoint trimEnd (s : string) : string :=
  match s with
  | EmptyString => EmptyString
  | String c s' =>
      match trimStart s with
      | EmptyString => EmptyString
      | String _ _ => String c (trimEnd s')
      end
  end.

(** [String.prototype.trim] on the UTF-8 bytes of a string. *)
Definition trim (s : string) : string := trimEnd (trimStart s).

(** An ASCII character that is not white space. *)
Definition plain (c : ascii) : bool :=
  (nat_of_ascii c <? 128)%nat && negb (is_space c).

(** JavaScript truthiness of a string: only the empty string is falsy. *)
Definition truthy (s : string) : bool :=
  match s with EmptyString => false | _ => true end.

(* ================================================================= *)
(** ** JSON values and HTTP responses *)

(** Instants are milliseconds since the epoch. *)
Definition timestamp := Z.

Unset Elimination Schemes.
Inductive json : Type :=
| JNull
| JStr (s : string)
| JNum (n : Z)
| JDate (t : timestamp)
| JArr (items : list json)
| JObj (fields : list (string * json)).
Set Elimination Schemes.

Fixpoint field (k : string) (fs : list (string * json)) : option json :=
  match fs with
  | nil => None
  | (k', v) :: rest => if k' =? k then Some v else field k rest
  end.

Definition get_field (k : string) (j : json) : option json :=
  match j with JObj fs => field k fs | _ => None end.

(** What a route sends: [res.status(c).json(v)], [res.status(c).send(html)],
    [res.redirect(url)] with the [url] it is given (Express answers 302 and
    encodes it into the Location header), or the PNG stream that
    [QRCode.toFileStream] writes for a text. *)
Inductive Response : Type :=
| Json (code : Z) (body : json)
| Html (code : Z) (body : string)
| Redirect (location : string)
| QrPng (content_type : string) (text : string) (width margin : Z).

Definition status_code (r : Response) : Z :=
  match r with
  | Json c _ => c
  | Html c _ => c
  | Redirect _ => 302
  | QrPng _ _ _ _ => 200
  end.

(* ================================================================= *)
(** ** Failures and the effect of a service call *)

(** An error a service call rejects with.  The redirect route tells them
    apart by [err.status === 'expired'] and then reads [err.expires_at];
    every other error takes the other branch. *)
Inductive Failure : Type :=
| NotFound
| Expired (expires_at : timestamp)
| StoreFailure (cause : string).

Inductive Result (A : Type) : Type :=
| Ok (a : A)
| Err (e : Failure).
Arguments Ok {A} a.
Arguments Err {A} e.

(** An awaited call: it reads and writes the world [W] and either resolves
    or rejects. *)
Definition M (W A : Type) : Type := W -> Result A * W.

Definition ret {W A} (a : A) : M W A := fun w => (Ok a, w).

Definition bind {W A B} (m : M W A) (k : A -> M W B) : M W B :=
  fun w =>
    match m w with
    | (Ok a, w') => k a w'
    | (Err e, w') => (Err e, w')
    end.

Notation "x <- m ;; k" := (bind m (fun x => k))
  (at level 61, m at next level, right associativity).

(** [try { body } catch (err) { handler }] around awaited calls. *)
Definition try_catch {W A} (body : M W A) (handler : Failure -> A) : W -> A * W :=
  fun w =>
    match body w with
    | (Ok a, w') => (a, w')
    | (Err e, w') => (handler e, w')
    end.

(** What [pool.request().query(...)] gives the debug route: a result whose
    [recordset] may be missing, or a driver error with its [message]. *)
Inductive QueryResult : Type :=
| Recordset (recordset : option (list (string * string)))
| QueryError (message : string).

(* ================================================================= *)
(** ** The platform and the service interface *)

(** What the process finds around it: the two environment variables, the
    [URL] constructor ([URL_parses s] holds when [new URL(s)] does not
    throw), the locale rendering of a date, and the page Express sends
    with status 500 for an error no route catches, given its message. *)
Class Platform : Type := {
  env_PORT : option string;
  env_BASE_URL : option string;
  URL_parses : string -> bool;
  toLocaleString : timestamp -> string;
  error_page : string -> string
}.

(** One stored link.  The columns are [short_code], [original_url],
    [created_at], [expires_at] and [click_count]. *)
Record ShortLink : Type := {
  shortCode : string;
  originalUrl : string;
  createdAt : timestamp;
  expiresAt : option timestamp;
  clickCount : Z
}.

(** The functions [server.js] calls on [./urlService], and the query the
    debug route sends to the pool of [./database]. *)
Class UrlService (W : Type) : Type := {
  createShortUrl : string -> option timestamp -> M W string;
  getUrlByShortCode : string -> M W ShortLink;
  incrementClickCount : string -> M W unit;
  getUrlStats : string -> M W ShortLink;
  query_urls : W -> QueryResult * W
}.

(** A value of a JSON body as [bodyParser.json()] hands it to a route; a
    number is [mantissa] times ten to the [exponent]. *)
Unset Elimination Schemes.
Inductive Posted : Type :=
| PNull
| PBool (b : bool)
| PNum (mantissa exponent : Z)
| PStr (s : string)
| PArr (items : list Posted)
| PObj (fields : list (string * Posted)).
Set Elimination Schemes.

(** JavaScript truthiness of such a value. *)
Definition posted_truthy (v : Posted) : bool :=
  match v with
  | PNull => false
  | PBool b => b
  | PNum mantissa _ => negb (mantissa =? 0)%Z
  | PStr s => truthy s
  | PArr _ => true
  | PObj _ => true
  end.

(** The body of [POST /api/shorten] after [bodyParser.json()]: [url] is
    absent or any JSON value, [expires_at] is absent/null or the instant
    its ISO-8601 string denotes. *)
Record ShortenBody : Type := {
  url : option Posted;
  expires_at : option timestamp
}.

Inductive Request : Type :=
| GetRoot
| GetDebugUrls
| PostShorten (body : ShortenBody)
| GetStats (shortCode : string)
| GetQr (shortCode : string)
| GetShortCode (shortCode : string).

(* ================================================================= *)
(** ** server.js *)

Section Server.
Context {P : Platform} {W : Type} {S : UrlService W}.

(** [process.env.PORT || 5000] *)
Definition PORT : string :=
  match env_PORT with
  | Some p => if truthy p then p else "5000"
  | None => "5000"
  end.

(** [process.env.BASE_URL || `http://localhost:${PORT}`] *)
Definition BASE_URL : string :=
  match env_BASE_URL with
  | Some b => if truthy b then b else "http://localhost:" ++ PORT
  | None => "http://localhost:" ++ PORT
  end.

Definition isValidUrl (string : string) : bool :=
  if URL_parses string then
    if includes string "localhost" || includes string "azurewebsites.net"
    then false
    else true
  else false.

Definition error_json (msg : string) : json := JObj [("error", JStr msg)].

(** The body of a successful [POST /api/shorten]. *)
Definition shortened (shortCode : string) : json :=
  JObj [("short_url", JStr (BASE_URL ++ "/" ++ shortCode));
        ("short_code", JStr shortCode)].

(** [res.json(stats)]: the row under its column names. *)
Definition stats_json (row : ShortLink) : json :=
  JObj [("short_code", JStr (shortCode row));
        ("original_url", JStr (originalUrl row));
        ("click_count", JNum (clickCount row));
        ("created_at", JDate (createdAt row));
        ("expires_at", match expiresAt row with
                       | Some t => JDate t
                       | None => JNull
                       end)].

Definition url_json (r : string * string) : json :=
  JObj [("short_code", JStr (fst r)); ("original_url", JStr (snd r))].

(** [app.get('/')] *)
Definition root : W -> Response * W :=
  fun w =>
    (Json 200 (JObj [("status", JStr "ok");
                     ("service", JStr "URL Shortener API");
                     ("message", JStr ("API endpoints available under "
                                       ++ BASE_URL ++ "/api"))]), w).

(** [app.get('/api/debug/urls')] *)
Definition debug_urls : W -> Response * W :=
  fun w =>
    match query_urls w with
    | (Recordset (Some rows), w') => (Json 200 (JArr (map url_json rows)), w')
    | (Recordset None, w') => (Json 200 (JArr nil), w')
    | (QueryError msg, w') => (Json 500 (error_json msg), w')
    end.

(** [app.post('/api/shorten')].  [url.trim()] stands outside the [try]:
    on a truthy [url] that is not a string it throws, and Express answers
    for the route. *)
Definition shorten (body : ShortenBody) : W -> Response * W :=
  match url body with
  | Some (PStr u) =>
      let url := if truthy u then Some (trim u) else None in
      match url with
      | None => fun w => (Json 400 (error_json "Invalid URL"), w)
      | Some url =>
          if negb (truthy url) || negb (isValidUrl url)
          then fun w => (Json 400 (error_json "Invalid URL"), w)
          else
            try_catch
              (shortCode <- createShortUrl url (expires_at body) ;;
               let shortUrl := BASE_URL ++ "/" ++ shortCode in
               ret (Json 200 (JObj [("short_url", JStr shortUrl);
                                    ("short_code", JStr shortCode)])))
              (fun err => Json 500 (error_json "Failed to shorten"))
      end
  | Some url =>
      if posted_truthy url
      then fun w => (Html 500 (error_page "url.trim is not a function"), w)
      else fun w => (Json 400 (error_json "Invalid URL"), w)
  | None => fun w => (Json 400 (error_json "Invalid URL"), w)
  end.

(** [app.get('/api/stats/:shortCode')] *)
Definition stats (shortCode : string) : W -> Response * W :=
  try_catch
    (stats <- getUrlStats shortCode ;;
     ret (Json 200 (stats_json stats)))
    (fun err => Json 404 (error_json "Not found")).

(** [app.get('/api/qr/:shortCode')] *)
Definition qr (shortCode : string) : W -> Response * W :=
  fun w =>
    let shortUrl := BASE_URL ++ "/" ++ shortCode in
    (QrPng "image/png" shortUrl 256 1, w).

Definition page_style (extra : list string) : list string :=
  ["            body { font-family: Arial, sans-serif; display: flex; justify-content: center; align-items: center; height: 100vh; margin: 0; background: linear-gradient(135deg, #667eea 0%, #764ba2 100%); }";
   "            .container { background: white; padding: 40px; border-radius: 8px; text-align: center; box-shadow: 0 10px 25px rgba(0,0,0,0.2); }";
   "            h1 { color: #d32f2f; margin: 0 0 10px 0; }";
   "            p { color: #666; margin: 10px 0; }"] ++ extra.

Definition expired_page (expires_at : timestamp) : string :=
  nl ++ lines
   (["        <!DOCTYPE html>";
     "        <html>";
     "        <head>";
     "          <title>Link Expired</title>";
     "          <style>"]
    ++ page_style
    ["            .expiry-time { color: #999; font-size: 14px; margin-top: 20px; }"]
    ++
    ["          </style>";
     "        </head>";
     "        <body>";
     "          <div class=" ++ dq ++ "container" ++ dq ++ ">";
     "            <h1>⏰ Link Expired</h1>";
     "            <p>This shortened URL has expired and is no longer accessible.</p>";
     "            <p class=" ++ dq ++ "expiry-time" ++ dq ++ ">Expired at: "
       ++ toLocaleString expires_at ++ "</p>";
     "          </div>";
     "        </body>";
     "        </html>"])
  ++ "      ".

Definition not_found_page : string :=
  nl ++ lines
   (["        <!DOCTYPE html>";
     "        <html>";
     "        <head>";
     "          <title>Not Found</title>";
     "          <style>"]
    ++ page_style []
    ++
    ["          </style>";
     "        </head>";
     "        <body>";
     "          <div class=" ++ dq ++ "container" ++ dq ++ ">";
     "            <h1>🔍 Not Found</h1>";
     "            <p>This shortened URL does not exist.</p>";
     "          </div>";
     "        </body>";
     "        </html>"])
  ++ "      ".

(** [app.get('/:shortCode')] *)
Definition redirect (shortCode : string) : W -> Response * W :=
  try_catch
    (row <- getUrlByShortCode shortCode ;;
     _ <- incrementClickCount shortCode ;;
     ret (Redirect (originalUrl row)))
    (fun err =>
       match err with
       | Expired expires_at => Html 410 (expired_page expires_at)
       | _ => Html 404 not_found_page
       end).

(** The routes in the order they are registered. *)
Definition handle (req : Request) : W -> Response * W :=
  match req with
  | GetRoot => root
  | GetDebugUrls => debug_urls
  | PostShorten body => shorten body
  | GetStats shortCode => stats shortCode
  | GetQr shortCode => qr shortCode
  | GetShortCode shortCode => redirect shortCode
  end.

End Server.

(* ================================================================= *)
(** ** The link service over an in-memory store *)

(** Modelled from the spec: the world a request runs in, which is the one
    table of section 3, the clock, the codes the generator will hand out
    next, and whether the store answers. *)
Record World : Type := {
  table : list ShortLink;
  now : timestamp;
  shortid : list string;
  db_up : bool
}.

Definition with_table (tbl : list ShortLink) (w : World) : World :=
  {| table := tbl; now := now w; shortid := shortid w; db_up := db_up w |}.

Definition with_shortid (ids : list string) (w : World) : World :=
  {| table := table w; now := now w; shortid := ids; db_up := db_up w |}.

(** How many rows satisfy [p]. *)
Definition count (p : ShortLink -> bool) (tbl : list ShortLink) : nat :=
  List.length (filter p tbl).

(** [clicked k r] is [r] after [k] more clicks. *)
Definition clicked (k : Z) (r : ShortLink) : ShortLink :=
  {| shortCode := shortCode r; originalUrl := originalUrl r;
     createdAt := createdAt r; expiresAt := expiresAt r;
     clickCount := clickCount r + k |}.

(** Modelled from the spec: the store's lookups, which [urlService.js]
    (not part of the sources) sends to the table.  A lookup gives the first
    matching row. *)
Definition find_by_url (u : string) (tbl : list ShortLink) : option ShortLink :=
  find (fun r => originalUrl r =? u) tbl.

(** Modelled from the spec: the lookup by [shortCode], the key of the
    table. *)
Definition find_by_code (c : string) (tbl : list ShortLink) : option ShortLink :=
  find (fun r => shortCode r =? c) tbl.

(** Modelled from the spec: the short code generator of section 4.2
    (generate, check existence, regenerate on collision).  [supply] lists
    the generator's next outputs; the result is the first one no stored
    record uses, with what is left of the supply. *)
Fixpoint generate (supply : list string) (tbl : list ShortLink)
  : option string * list string :=
  match supply with
  | nil => (None, nil)
  | c :: rest =>
      match find_by_code c tbl with
      | Some _ => generate rest tbl
      | None => (Some c, rest)
      end
  end.

(** Modelled from the spec: what every call gives while the store is
    unreachable. *)
Definition store_unreachable : Failure := StoreFailure "store unreachable".

(** Modelled from the spec: [createShortLink(url, expiresAt)] of section
    4.1, the missing [urlService.createShortUrl]. *)
Definition createShortLink (url : string) (expiresAt : option timestamp)
  : M World string :=
  fun w =>
    if negb (db_up w) then (Err store_unreachable, w)
    else
      let u := trim url in
      match find_by_url u (table w) with
      | Some r => (Ok (shortCode r), w)
      | None =>
          match generate (shortid w) (table w) with
          | (Some c, rest) =>
              (Ok c,
               {| table := (table w ++
                            [{| shortCode := c; originalUrl := u;
                                createdAt := now w; expiresAt := expiresAt;
                                clickCount := 0 |}])%list;
                  now := now w; shortid := rest; db_up := db_up w |})
          | (None, rest) =>
              (Err (StoreFailure "no unique short code"), with_shortid rest w)
          end
      end.

(** The record [createShortLink] appends for a new URL: created now, never
    clicked. *)
Definition new_link (c u : string) (w : World) (e : option timestamp) : ShortLink :=
  {| shortCode := c; originalUrl := u; createdAt := now w; expiresAt := e;
     clickCount := 0 |}.

(** Modelled from the spec: a record is expired when [expiresAt] is set and
    now > [expiresAt]. *)
Definition expired_at (now : timestamp) (r : ShortLink) : option timestamp :=
  match expiresAt r with
  | Some t => if (t <? now)%Z then Some t else None
  | None => None
  end.

(** Modelled from the spec: [resolveShortLink(code)] of section 4.1, the
    missing [urlService.getUrlByShortCode]. *)
Definition resolveShortLink (code : string) : M World ShortLink :=
  fun w =>
    if negb (db_up w) then (Err store_unreachable, w)
    else
      match find_by_code code (table w) with
      | None => (Err NotFound, w)
      | Some r =>
          match expired_at (now w) r with
          | Some t => (Err (Expired t), w)
          | None => (Ok r, w)
          end
      end.

(** Modelled from the spec: one more click on a record of this code; any
    other record is left alone. *)
Definition click (code : string) (r : ShortLink) : ShortLink :=
  if shortCode r =? code
  then {| shortCode := shortCode r; originalUrl := originalUrl r;
          createdAt := createdAt r; expiresAt := expiresAt r;
          clickCount := clickCount r + 1 |}
  else r.

(** Modelled from the spec: [incrementClickCount(code)] of section 4.1,
    the missing [urlService.incrementClickCount]; a no-op when no record
    has the code. *)
Definition incrementClicks (code : string) : M World unit :=
  fun w =>
    if negb (db_up w) then (Err store_unreachable, w)
    else (Ok tt, with_table (map (click code) (table w)) w).

(** Modelled from the spec: [getStats(code)] of section 4.1, the missing
    [urlService.getUrlStats]; no expiration check. *)
Definition getStats (code : string) : M World ShortLink :=
  fun w =>
    if negb (db_up w) then (Err store_unreachable, w)
    else
      match find_by_code code (table w) with
      | None => (Err NotFound, w)
      | Some r => (Ok r, w)
      end.

(** Modelled from the spec: the store's answer to
    [SELECT short_code, original_url FROM urls] (section 6, the pool of the
    missing [database.js]). *)
Definition select_urls (w : World) : QueryResult * World :=
  if negb (db_up w) then (QueryError "store unreachable", w)
  else (Recordset (Some (map (fun r => (shortCode r, originalUrl r)) (table w))), w).

#[export] Instance link_service : UrlService World := {
  createShortUrl := createShortLink;
  getUrlByShortCode := resolveShortLink;
  incrementClickCount := incrementClicks;
  getUrlStats := getStats;
  query_urls := select_urls
}.

(** A service whose every call rejects: the persistence layer is down and
    says why. *)
#[export] Instance outage (cause : string) : UrlService unit := {
  createShortUrl := fun _ _ w => (Err (StoreFailure cause), w);
  getUrlByShortCode := fun _ w => (Err (StoreFailure cause), w);
  incrementClickCount := fun _ w => (Err (StoreFailure cause), w);
  getUrlStats := fun _ w => (Err (StoreFailure cause), w);
  query_urls := fun w => (QueryError cause, w)
}.

(* ================================================================= *)
(** ** Runs of the server *)

(** Between requests the environment may move the clock, take the store
    down or bring it back, and reseed the code generator; it never touches
    the table. *)
Inductive Event : Type :=
| Call (req : Request)
| Environment (now : timestamp) (db_up : bool) (shortid : list string).

Section Runs.
Context {P : Platform}.

Definition step (e : Event) (w : World) : World :=
  match e with
  | Call req => snd (handle req w)
  | Environment n up ids =>
      {| table := table w; now := n; shortid := ids; db_up := up |}
  end.

Fixpoint run (evs : list Event) (w : World) : World :=
  match evs with
  | nil => w
  | e :: rest => run rest (step e w)
  end.

(** The process starts on an empty table. *)
Definition boot (n : timestamp) (up : bool) (ids : list string) : World :=
  {| table := nil; now := n; shortid := ids; db_up := up |}.

Definition is_redirect (r : Response) : bool :=
  match r with Redirect _ => true | _ => false end.

(** [hit code e w] is 1 when [e] is a request for [/code] that the server,
    in world [w], answers by a redirect, and 0 otherwise. *)
Definition hit (code : string) (e : Event) (w : World) : Z :=
  match e with
  | Call (GetShortCode c) =>
      if (c =? code) && is_redirect (fst (handle (GetShortCode c) w))
      then 1 else 0
  | _ => 0
  end.

(** How many requests for [/code] along a run were answered by a redirect. *)
Fixpoint redirects (code : string) (evs : list Event) (w : World) : Z :=
  match evs with
  | nil => 0
  | e :: rest => hit code e w + redirects code rest (step e w)
  end.

Definition clicks (code : string) (w : World) : option Z :=
  option_map clickCount (find_by_code code (table w)).

Definition count_url (u : string) (tbl : list ShortLink) : nat :=
  count (fun r => originalUrl r =? u) tbl.

Definition count_code (c : string) (tbl : list ShortLink) : nat :=
  count (fun r => shortCode r =? c) tbl.

(** Short codes and stored URLs are each unique in the table. *)
Definition unique (tbl : list ShortLink) : Prop :=
  (forall c, (count_code c tbl <= 1)%nat) /\
  (forall u, (count_url u tbl <= 1)%nat).

Definition at_time (n : timestamp) (w : World) : World :=
  {| table := table w; now := n; shortid := shortid w; db_up := db_up w |}.

(** The three things an event can do to the table: nothing, append one
    record under a code and a URL no stored record has, or count one click
    on the records of a code whose request was answered by a redirect. *)
Inductive Change (e : Event) (w : World) : Prop :=
| Unchanged :
    table (step e w) = table w ->
    (forall code, hit code e w = 0) ->
    Change e w
| Inserted (c u : string) (x : option timestamp) :
    find_by_code c (table w) = None ->
    find_by_url u (table w) = None ->
    table (step e w) =
      (table w ++ [{| shortCode := c; originalUrl := u; createdAt := now w;
                      expiresAt := x; clickCount := 0 |}])%list ->
    (forall code, hit code e w = 0) ->
    Change e w
| Clicked (c : string) (r : ShortLink) :
    e = Call (GetShortCode c) ->
    db_up w = true ->
    find_by_code c (table w) = Some r ->
    expired_at (now w) r = None ->
    fst (handle (GetShortCode c) w) = Redirect (originalUrl r) ->
    table (step e w) = map (click c) (table w) ->
    Change e w.

End Runs.

(* ================================================================= *)
(** ** Two deployments for the examples *)

(** A stand-in for the [URL] constructor: it accepts the strings that start
    with [http://] or [https://], go on with at least one character and
    hold no space.  On the URLs of the examples below it answers as the
    constructor does. *)
Definition http_like (s : string) : bool :=
  (match s with
   | String "h" (String "t" (String "t" (String "p"
       (String ":" (String "/" (String "/" (String _ _))))))) => true
   | String "h" (String "t" (String "t" (String "p" (String "s"
       (String ":" (String "/" (String "/" (String _ _)))))))) => true
   | _ => false
   end) && negb (includes s " ").

(** A stand-in for [Date.prototype.toLocaleString]: the instant in decimal
    milliseconds. *)
Definition in_millis (t : timestamp) : string :=
  DecimalString.NilZero.string_of_int (Z.to_int t) ++ " ms".

(** No environment variables: the server listens on port 5000 and calls
    itself [http://localhost:5000]. *)
Definition development : Platform := {|
  env_PORT := None;
  env_BASE_URL := None;
  URL_parses := http_like;
  toLocaleString := in_millis;
  error_page := fun message => "TypeError: " ++ message
|}.

(** A deployment behind its own domain. *)
Definition custom_domain : Platform := {|
  env_PORT := Some "8080";
  env_BASE_URL := Some "https://sho.rt";
  URL_parses := http_like;
  toLocaleString := in_millis;
  error_page := fun message => "TypeError: " ++ message
|}.

(** The worlds of the examples. *)
Definition fresh_world : World := boot 1000 true ["abc123"; "xyz789"].

Definition example_url : string := "https://example.com/a/b".

Definition example_body (e : option timestamp) : ShortenBody :=
  {| url := Some (PStr "  https://example.com/a/b "); expires_at := e |}.

Definition example_link (e : option timestamp) (n : Z) : ShortLink :=
  {| shortCode := "abc123"; originalUrl := example_url; createdAt := 1000;
     expiresAt := e; clickCount := n |}.

(** The world right after the example URL was first shortened. *)
Definition created_world : World :=
  {| table := [example_link None 0]; now := 1000;
     shortid := ["xyz789"]; db_up := true |}.

(** The link was created at 1000 to expire at 2000; it is now 3000. *)
Definition expired_world : World :=
  {| table := [example_link (Some 2000) 0]; now := 3000;
     shortid := ["xyz789"]; db_up := true |}.

(* ================================================================= *)
(** ** More of server.js: which bodies the shorten route lets through *)

Section Accepting.
Context {P : Platform}.

(** The URL the shorten route passes to [createShortUrl], if it gets that
    far: the trimmed [url] of the body, when it is there, not blank and
    valid. *)
Definition accepted_url (body : ShortenBody) : option string :=
  match url body with
  | Some (PStr raw) =>
      if truthy (trim raw) && isValidUrl (trim raw) then Some (trim raw)
      else None
  | _ => None
  end.

(** The bodies on which [url.trim()] throws: [url] is truthy and not a
    string. *)
Definition crashes (body : ShortenBody) : bool :=
  match url body with
  | Some (PStr _) => false
  | Some v => posted_truthy v
  | None => false
  end.

End Accepting.

Definition is_json (r : Response) : bool :=
  match r with Json _ _ => true | _ => false end.

(* ================================================================= *)
(** ** App.js: the page that calls the server *)

(** What the browser gives the page: the API address baked in at build
    time, [String(v)] for a value that is neither null nor a string (a date
    stands for its ISO-8601 text), and the time value of [new Date(v)] for
    a value that is not a date ([None] for an invalid date). *)
Class Browser : Type := {
  REACT_APP_API_URL : option string;
  ToString : json -> string;
  Date_value : json -> option timestamp
}.

(** What [await response.json()] gives: the parsed body, or the message of
    the error it rejects with. *)
Inductive Payload : Type :=
| Parsed (data : json)
| Garbled (message : string).

(** What [await fetch(...)] gives: a rejection with its message, or a
    response with its [ok] flag and its body. *)
Inductive Fetch : Type :=
| Rejected (message : string)
| Replied (ok : bool) (body : Payload).

(** [response.ok]: the status is in the range 200-299. *)
Definition ok (code : Z) : bool := ((200 <=? code) && (code <=? 299))%Z.

(** JavaScript truthiness of a JSON value, and of a property that may be
    missing. *)
Definition json_truthy (v : json) : bool :=
  match v with
  | JNull => false
  | JStr s => truthy s
  | JNum n => negb (n =? 0)%Z
  | _ => true
  end.

Definition property_truthy (v : option json) : bool :=
  match v with
  | Some v => json_truthy v
  | None => false
  end.

Section BrowserValues.
Context {B : Browser}.

(** A value inside a template literal. *)
Definition template (v : option json) : string :=
  match v with
  | None => "undefined"
  | Some JNull => "null"
  | Some (JStr s) => s
  | Some other => ToString other
  end.

(** The time value of [new Date(v)]. *)
Definition new_Date (v : option json) : option timestamp :=
  match v with
  | Some (JDate t) => Some t
  | Some other => Date_value other
  | None => None
  end.

End BrowserValues.

Module App.

(** The state hooks of the component. *)
Record State : Type := {
  url : string;
  expiresAt : option timestamp;
  result : json;
  qrCode : option string;
  error : string;
  loading : bool;
  stats : json;
  showStats : bool
}.

(** The state at the first render. *)
Definition initial : State :=
  {| url := EmptyString; expiresAt := None; result := JNull; qrCode := None;
     error := EmptyString; loading := false; stats := JNull;
     showStats := false |}.

Definition setUrl (v : string) (s : State) : State :=
  {| url := v; expiresAt := expiresAt s; result := result s;
     qrCode := qrCode s; error := error s; loading := loading s;
     stats := stats s; showStats := showStats s |}.

Definition setExpiresAt (v : option timestamp) (s : State) : State :=
  {| url := url s; expiresAt := v; result := result s;
     qrCode := qrCode s; error := error s; loading := loading s;
     stats := stats s; showStats := showStats s |}.

Definition setResult (v : json) (s : State) : State :=
  {| url := url s; expiresAt := expiresAt s; result := v;
     qrCode := qrCode s; error := error s; loading := loading s;
     stats := stats s; showStats := showStats s |}.

Definition setQrCode (v : option string) (s : State) : State :=
  {| url := url s; expiresAt := expiresAt s; result := result s;
     qrCode := v; error := error s; loading := loading s;
     stats := stats s; showStats := showStats s |}.

Definition setError (v : string) (s : State) : State :=
  {| url := url s; expiresAt := expiresAt s; result := result s;
     qrCode := qrCode s; error := v; loading := loading s;
     stats := stats s; showStats := showStats s |}.

Definition setLoading (v : bool) (s : State) : State :=
  {| url := url s; expiresAt := expiresAt s; result := result s;
     qrCode := qrCode s; error := error s; loading := v;
     stats := stats s; showStats := showStats s |}.

Definition setStats (v : json) (s : State) : State :=
  {| url := url s; expiresAt := expiresAt s; result := result s;
     qrCode := qrCode s; error := error s; loading := loading s;
     stats := v; showStats := showStats s |}.

Definition setShowStats (v : bool) (s : State) : State :=
  {| url := url s; expiresAt := expiresAt s; result := result s;
     qrCode := qrCode s; error := error s; loading := loading s;
     stats := stats s; showStats := v |}.

Section Page.
Context {P : Platform} {B : Browser} {N : Type}.

(** The network the page talks through: a request and the state of the
    other side give what [fetch] resolves to and the state left behind. *)
Variable fetch : Request -> N -> Fetch * N.

(** [process.env.REACT_APP_API_URL] inside a template literal. *)
Definition API_URL : string := template (option_map JStr REACT_APP_API_URL).

Definition isValidUrl (string : string) : bool := URL_parses string.

(** [err.message || 'An error occurred. Make sure the backend is running!'] *)
Definition message_or_default (message : string) : string :=
  if truthy message then message
  else "An error occurred. Make sure the backend is running!".

Definition handleShorten (s : State) : N -> State * N :=
  fun n =>
    let s1 := setStats JNull (setShowStats false (setQrCode None
                (setResult JNull (setError EmptyString s)))) in
    if negb (truthy (trim (url s))) then
      (setError "Please enter a URL" s1, n)
    else if negb (isValidUrl (url s)) then
      (setError "Please enter a valid URL" s1, n)
    else
      let s2 := setLoading true s1 in
      let (response, n') :=
        fetch (PostShorten (Build_ShortenBody (Some (PStr (trim (url s))))
                                              (expiresAt s))) n in
      let s3 :=
        match response with
        | Rejected message => setError (message_or_default message) s2
        | Replied false _ => setError "Failed to shorten URL" s2
        | Replied true (Garbled message) =>
            setError (message_or_default message) s2
        | Replied true (Parsed data) =>
            let s' := setExpiresAt None (setUrl EmptyString (setResult data s2)) in
            match data with
            | JNull => s'
            | _ =>
                setQrCode
                  (Some (API_URL ++ "/api/qr/"
                         ++ template (get_field "short_code" data))) s'
            end
        end in
      (setLoading false s3, n').

Definition handleGetStats (s : State) : N -> State * N :=
  fun n =>
    if negb (json_truthy (result s)) then (s, n)
    else
      let (response, n') :=
        fetch (GetStats (template (get_field "short_code" (result s)))) n in
      match response with
      | Replied true (Parsed data) => (setShowStats true (setStats data s), n')
      | _ => (setError "Failed to fetch stats" s, n')
      end.

(** What [copyToClipboard] writes to the clipboard and then alerts, if
    anything. *)
Definition copyToClipboard (s : State) : option (string * string) :=
  if json_truthy (result s)
  then Some (template (get_field "short_url" (result s)),
             "Copied to clipboard!")
  else None.

Definition handleKeyPress (key : string) (s : State) : N -> State * N :=
  if key =? "Enter" then handleShorten s else fun n => (s, n).

(** [isExpired()] when the clock reads [now]. *)
Definition isExpired (now : timestamp) (s : State) : bool :=
  if negb (json_truthy (result s))
     || negb (property_truthy (get_field "expires_at" (result s)))
  then false
  else
    match new_Date (get_field "expires_at" (result s)) with
    | Some t => (t <? now)%Z
    | None => false
    end.

End Page.
End App.

(** A network that hands the page the JSON answers of the server as they
    are. *)
Definition Delivers {P : Platform} {W : Type} {S : UrlService W}
    (fetch : Request -> W -> Fetch * W) : Prop :=
  forall req w code body w',
    handle req w = (Json code body, w') ->
    fetch req w = (Replied (ok code) (Parsed body), w').

(** The page and the server on one machine: every answer comes back, and a
    body that is not JSON makes [response.json()] reject. *)
Definition loopback {P : Platform} {W : Type} {S : UrlService W}
    (req : Request) (w : W) : Fetch * W :=
  match handle req w with
  | (Json code body, w') => (Replied (ok code) (Parsed body), w')
  | (other, w') => (Replied (ok (status_code other)) (Garbled "Unexpected token"), w')
  end.

(** A browser for the examples: the page was built for the development
    server. *)
Definition example_browser : Browser := {|
  REACT_APP_API_URL := Some "http://localhost:5000";
  ToString := fun _ => "[object Object]";
  Date_value := fun _ => None
|}.

(** The page with the example URL typed in. *)
Definition typed (u : string) (e : option timestamp) : App.State :=
  App.setExpiresAt e (App.setUrl u App.initial).

(** The development server behind the page of the examples. *)
Definition example_fetch : Request -> World -> Fetch * World :=
  @loopback development World link_service.

Definition press_shorten : App.State -> World -> App.State * World :=
  @App.handleShorten development example_browser World example_fetch.

Definition press_stats : App.State -> World -> App.State * World :=
  @App.handleGetStats example_browser World example_fetch.

(* ================================================================= *)
(** ** Strings *)

Lemma append_assoc (a b c : string) : (a ++ b) ++ c = a ++ b ++ c.
Proof. induction a; simpl; congruence. Qed.

Lemma prefix_split (p s : string) :
  prefix p s = true <-> exists rest, s = p ++ rest.
Proof.
  revert p; induction s as [|d s IH]; intros [|c p]; simpl.
  - split; [intros _; now exists EmptyString | reflexivity].
  - split; [discriminate | intros [rest H]; discriminate].
  - split; [intros _; now exists (String d s) | reflexivity].
  - destruct (ascii_dec c d) as [->|neq].
    + rewrite IH. split; intros [rest H]; exists rest; congruence.
    + split; [discriminate | intros [rest H]; congruence].
Qed.

Lemma includes_split (s pat : string) :
  includes s pat = true <-> exists before after, s = before ++ pat ++ after.
Proof.
  induction s as [|c s IH]; cbn [includes].
  - rewrite orb_false_r, prefix_split. split.
    + intros [rest H]. now exists EmptyString, rest.
    + intros [[|d before] [after H]]; simpl in H; [now exists after | discriminate].
  - rewrite orb_true_iff, prefix_split, IH. split.
    + intros [[rest H] | [before [after H]]].
      * now exists EmptyString, rest.
      * exists (String c before), after. simpl. congruence.
    + intros [[|d before] [after H]]; simpl in H.
      * left. now exists after.
      * right. exists before, after. congruence.
Qed.

Lemma includes_trans (s mid pat : string) :
  includes s mid = true -> includes mid pat = true -> includes s pat = true.
Proof.
  rewrite !includes_split.
  intros [a [b ->]] [c [d ->]].
  exists (a ++ c), (d ++ b). now rewrite !append_assoc.
Qed.

Lemma trimStart_eq (s : string) :
  trimStart s = match strip1 s with Some r => trimStart r | None => s end.
Proof.
  destruct s as [|a [|b [|c r]]]; cbn [trimStart strip1]; try reflexivity.
  - now destruct (is_space a).
  - destruct (is_space a); [reflexivity|]. now destruct (is_space2 a b).
  - destruct (is_space a); [reflexivity|].
    destruct (is_space2 a b); [reflexivity|]. now destruct (is_space3 a b c).
Qed.

Lemma strip1_drops (s r : string) :
  strip1 s = Some r ->
  (exists a, s = String a r /\ plain a = false) \/
  (exists a b, s = String a (String b r) /\ plain a = false /\ plain b = false) \/
  (exists a b c, s = String a (String b (String c r)) /\
                 plain a = false /\ plain b = false /\ plain c = false).
Proof.
  assert (Hi : forall n, (128 <= n)%nat -> forall c, nat_of_ascii c = n -> plain c = false).
  { intros n Hn c Hc. unfold plain. rewrite Hc.
    now rewrite (proj2 (Nat.ltb_ge n 128) Hn). }
  destruct s as [|a [|b [|c s]]]; cbn [strip1]; try discriminate.
  - destruct (is_space a) eqn:Ea; [|discriminate].
    intros H; injection H as <-. left. exists a. split; [reflexivity|].
    unfold plain. rewrite Ea. now rewrite andb_false_r.
  - destruct (is_space a) eqn:Ea.
    + intros H; injection H as <-. left. exists a. split; [reflexivity|].
      unfold plain. rewrite Ea. now rewrite andb_false_r.
    + destruct (is_space2 a b) eqn:E2; [|discriminate].
      intros H; injection H as <-. right; left. exists a, b.
      unfold is_space2 in E2. rewrite andb_true_iff, !Nat.eqb_eq in E2.
      destruct E2 as [A Bq]. split; [reflexivity|].
      split; [apply (Hi 194%nat) | apply (Hi 160%nat)]; (lia || assumption).
  - destruct (is_space a) eqn:Ea.
    + intros H; injection H as <-. left. exists a. split; [reflexivity|].
      unfold plain. rewrite Ea. now rewrite andb_false_r.
    + destruct (is_space2 a b) eqn:E2.
      * intros H; injection H as <-. right; left. exists a, b.
        unfold is_space2 in E2. rewrite andb_true_iff, !Nat.eqb_eq in E2.
        destruct E2 as [A Bq]. split; [reflexivity|].
        split; [apply (Hi 194%nat) | apply (Hi 160%nat)]; (lia || assumption).
      * destruct (is_space3 a b c) eqn:E3; [|discriminate].
        intros H; injection H as <-. right; right. exists a, b, c.
        split; [reflexivity|].
        unfold is_space3 in E3. cbv zeta in E3.
        repeat first [ rewrite orb_true_iff in E3 | rewrite andb_true_iff in E3
                     | rewrite Nat.eqb_eq in E3 | rewrite Nat.leb_le in E3 ].
        repeat split;
          (eapply Hi; [|reflexivity]); lia.
Qed.

Lemma strip1_shorter (s r : string) :
  strip1 s = Some r -> (String.length r < String.length s)%nat.
Proof.
  intros H. destruct (strip1_drops s r H)
    as [[a [-> _]] | [[a [b [-> _]]] | [a [b [c [-> _]]]]]]; cbn; lia.
Qed.

Lemma strip1_app (s r z : string) :
  strip1 s = Some r -> strip1 (s ++ z) = Some (r ++ z).
Proof.
  destruct s as [|a [|b [|c s]]]; cbn [strip1 append]; try discriminate.
  - destruct (is_space a); [|discriminate].
    intros H; injection H as <-. now destruct z.
  - destruct (is_space a); [intros H; injection H as <-; reflexivity|].
    destruct (is_space2 a b); [|discriminate].
    intros H; injection H as <-. now destruct z.
  - destruct (is_space a); [intros H; injection H as <-; reflexivity|].
    destruct (is_space2 a b); [intros H; injection H as <-; reflexivity|].
    destruct (is_space3 a b c); [|discriminate].
    intros H; injection H as <-. reflexivity.
Qed.

(** Induction on strings by length. *)
Lemma by_length (Q : string -> Prop) :
  (forall s, (forall r, (String.length r < String.length s)%nat -> Q r) -> Q s) ->
  forall s, Q s.
Proof.
  intros step s.
  assert (H : forall n r, (String.length r < n)%nat -> Q r).
  { induction n as [|n IH]; intros r Hr; [lia|].
    apply step. intros r' Hr'. apply IH. lia. }
  apply (H (S (String.length s))). lia.
Qed.

Lemma trimStart_head (s : string) : strip1 (trimStart s) = None.
Proof.
  induction s as [s IH] using by_length. rewrite trimStart_eq.
  destruct (strip1 s) as [r|] eqn:E; [|exact E].
  apply IH. now apply strip1_shorter.
Qed.

Lemma trimStart_fixed (s : string) : strip1 s = None -> trimStart s = s.
Proof. intros H. now rewrite trimStart_eq, H. Qed.

Lemma blank_app (x y : string) :
  trimStart x = EmptyString -> trimStart (x ++ y) = trimStart y.
Proof.
  induction x as [x IH] using by_length. intros H.
  rewrite trimStart_eq in H. destruct (strip1 x) as [r|] eqn:E.
  - rewrite (trimStart_eq (x ++ y)), (strip1_app _ _ y E).
    apply IH; [now apply strip1_shorter | exact H].
  - now subst x.
Qed.

Lemma trimEnd_split (s : string) :
  exists z, s = trimEnd s ++ z /\ trimStart z = EmptyString.
Proof.
  induction s as [|c s [z [Hs Hz]]]; [now exists EmptyString|].
  cbn [trimEnd]. destruct (trimStart (String c s)) eqn:E.
  - now exists (String c s).
  - exists z. cbn [append]. now rewrite <- Hs.
Qed.

Lemma trimEnd_idem (s : string) : trimEnd (trimEnd s) = trimEnd s.
Proof.
  induction s as [|c s IH]; [reflexivity|].
  cbn [trimEnd]. destruct (trimStart (String c s)) eqn:E; [reflexivity|].
  cbn [trimEnd]. destruct (trimStart (String c (trimEnd s))) eqn:E'.
  - destruct (trimEnd_split s) as [z [Hs Hz]].
    pose proof (blank_app (String c (trimEnd s)) z E') as H.
    cbn [append] in H. rewrite <- Hs, Hz in H. congruence.
  - now rewrite IH.
Qed.

Lemma trimEnd_head (t : string) : strip1 t = None -> strip1 (trimEnd t) = None.
Proof.
  intros H. destruct (strip1 (trimEnd t)) as [r|] eqn:E; [|reflexivity].
  destruct (trimEnd_split t) as [z [Ht _]].
  pose proof (strip1_app _ _ z E) as H'. rewrite <- Ht in H'. congruence.
Qed.

Lemma trim_idem (s : string) : trim (trim s) = trim s.
Proof.
  unfold trim.
  rewrite (trimStart_fixed _ (trimEnd_head _ (trimStart_head s))).
  apply trimEnd_idem.
Qed.

(* ================================================================= *)
(** ** Tables: lookups, counting, and the two ways a table changes *)

Section Lookup.
Variable p : ShortLink -> bool.

Lemma find_app_some (tbl extra : list ShortLink) (r : ShortLink) :
  find p tbl = Some r -> find p (tbl ++ extra)%list = Some r.
Proof.
  induction tbl as [|a tbl IH]; simpl; [discriminate|].
  destruct (p a); [exact id | exact IH].
Qed.

Lemma find_app_none (tbl extra : list ShortLink) :
  find p tbl = None -> find p (tbl ++ extra)%list = find p extra.
Proof.
  induction tbl as [|a tbl IH]; simpl; [reflexivity|].
  destruct (p a); [discriminate | exact IH].
Qed.

Lemma count_app (tbl extra : list ShortLink) :
  count p (tbl ++ extra)%list = (count p tbl + count p extra)%nat.
Proof. unfold count. now rewrite filter_app, length_app. Qed.

Lemma find_none_count (tbl : list ShortLink) :
  find p tbl = None <-> count p tbl = 0%nat.
Proof.
  unfold count. induction tbl as [|a tbl IH]; simpl; [tauto|].
  destruct (p a); simpl; [split; discriminate | exact IH].
Qed.

Lemma count_zero_absent (tbl : list ShortLink) (r : ShortLink) :
  count p tbl = 0%nat -> In r tbl -> p r = false.
Proof.
  rewrite <- find_none_count. intros H Hin.
  destruct (p r) eqn:E; [|reflexivity].
  now rewrite (find_none _ _ H r Hin) in E.
Qed.

Lemma unique_find (tbl : list ShortLink) (r : ShortLink) :
  (count p tbl <= 1)%nat -> In r tbl -> p r = true -> find p tbl = Some r.
Proof.
  unfold count. induction tbl as [|a tbl IH]; simpl; [tauto|].
  intros Hle [-> | Hin] Hp.
  - now rewrite Hp.
  - destruct (p a) eqn:E; simpl in Hle.
    + assert (Hz : count p tbl = 0%nat) by (unfold count; lia).
      rewrite (count_zero_absent _ _ Hz Hin) in Hp. discriminate.
    + now apply IH.
Qed.

Lemma find_count_pos (tbl : list ShortLink) (r : ShortLink) :
  find p tbl = Some r -> (1 <= count p tbl)%nat.
Proof.
  intros H. destruct (count p tbl) eqn:E; [|lia].
  apply find_none_count in E. congruence.
Qed.

Variable f : ShortLink -> ShortLink.
Hypothesis f_keeps : forall r, p (f r) = p r.

Lemma find_map (tbl : list ShortLink) :
  find p (map f tbl) = option_map f (find p tbl).
Proof.
  induction tbl as [|a tbl IH]; simpl; [reflexivity|].
  rewrite f_keeps. now destruct (p a).
Qed.

Lemma count_map (tbl : list ShortLink) : count p (map f tbl) = count p tbl.
Proof.
  unfold count. induction tbl as [|a tbl IH]; simpl; [reflexivity|].
  rewrite f_keeps. destruct (p a); simpl; congruence.
Qed.

End Lookup.

Lemma clicked_0 (r : ShortLink) : clicked 0 r = r.
Proof. destruct r; unfold clicked; simpl. now rewrite Z.add_0_r. Qed.

Lemma clicked_clicked (j k : Z) (r : ShortLink) :
  clicked k (clicked j r) = clicked (j + k) r.
Proof. unfold clicked; simpl. now rewrite Z.add_assoc. Qed.

Lemma click_clicked (code : string) (r : ShortLink) :
  click code r = clicked (if shortCode r =? code then 1 else 0) r.
Proof.
  unfold click. destruct (shortCode r =? code); [reflexivity|].
  symmetry; apply clicked_0.
Qed.

Lemma click_code (k c : string) (r : ShortLink) :
  (shortCode (click k r) =? c) = (shortCode r =? c).
Proof. unfold click. now destruct (shortCode r =? k). Qed.

Lemma click_url (k u : string) (r : ShortLink) :
  (originalUrl (click k r) =? u) = (originalUrl r =? u).
Proof. unfold click. now destruct (shortCode r =? k). Qed.

Lemma find_by_code_sound (c : string) (tbl : list ShortLink) (r : ShortLink) :
  find_by_code c tbl = Some r -> In r tbl /\ shortCode r = c.
Proof.
  intros H. apply find_some in H. now rewrite String.eqb_eq in H.
Qed.

Lemma find_by_url_sound (u : string) (tbl : list ShortLink) (r : ShortLink) :
  find_by_url u tbl = Some r -> In r tbl /\ originalUrl r = u.
Proof.
  intros H. apply find_some in H. now rewrite String.eqb_eq in H.
Qed.

Lemma generate_fresh (ids rest : list string) (tbl : list ShortLink) (c : string) :
  generate ids tbl = (Some c, rest) -> find_by_code c tbl = None.
Proof.
  induction ids as [|i ids IH]; simpl; [discriminate|].
  destruct (find_by_code i tbl) eqn:E; [exact IH|].
  intros H; injection H as <- _. exact E.
Qed.

Lemma generate_some (ids : list string) (tbl : list ShortLink) :
  (exists c, In c ids /\ find_by_code c tbl = None) ->
  exists c rest, generate ids tbl = (Some c, rest).
Proof.
  intros [c [Hin Hc]].
  induction ids as [|i ids IH]; simpl; [destruct Hin|].
  destruct (find_by_code i tbl) eqn:E.
  - destruct Hin as [-> | Hin]; [congruence | now apply IH].
  - now exists i, ids.
Qed.

(* ================================================================= *)
(** ** The routes, case by case, over any service *)

Section Routes.
Context {P : Platform} {W : Type} {S : UrlService W}.

Lemma shorten_cases (body : ShortenBody) (w : W) :
  shorten body w =
  match url body with
  | Some (PStr raw) =>
      if truthy (trim raw) && isValidUrl (trim raw) then
        match createShortUrl (trim raw) (expires_at body) w with
        | (Ok c, w') => (Json 200 (shortened c), w')
        | (Err _, w') => (Json 500 (error_json "Failed to shorten"), w')
        end
      else (Json 400 (error_json "Invalid URL"), w)
  | Some v =>
      if posted_truthy v
      then (Html 500 (error_page "url.trim is not a function"), w)
      else (Json 400 (error_json "Invalid URL"), w)
  | None => (Json 400 (error_json "Invalid URL"), w)
  end.
Proof.
  unfold shorten. destruct (url body) as [v|]; [|reflexivity].
  destruct v as [ |b|m e|raw|items|fields]; try reflexivity.
  - now destruct b.
  - cbn [posted_truthy]. now destruct (negb (m =? 0)%Z).
  - destruct (truthy raw) eqn:Eraw.
    + destruct (truthy (trim raw)); simpl; [|reflexivity].
      destruct (isValidUrl (trim raw)); simpl; [|reflexivity].
      unfold try_catch, bind, ret.
      now destruct (createShortUrl (trim raw) (expires_at body) w) as [[c|e] w'].
    + destruct raw; [reflexivity | discriminate].
Qed.

Lemma stats_cases (code : string) (w : W) :
  stats code w =
  match getUrlStats code w with
  | (Ok row, w') => (Json 200 (stats_json row), w')
  | (Err _, w') => (Json 404 (error_json "Not found"), w')
  end.
Proof.
  unfold stats, try_catch, bind, ret.
  now destruct (getUrlStats code w) as [[row|e] w'].
Qed.

Lemma redirect_cases (code : string) (w : W) :
  redirect code w =
  match getUrlByShortCode code w with
  | (Ok row, w1) =>
      match incrementClickCount code w1 with
      | (Ok _, w2) => (Redirect (originalUrl row), w2)
      | (Err (Expired t), w2) => (Html 410 (expired_page t), w2)
      | (Err _, w2) => (Html 404 not_found_page, w2)
      end
  | (Err (Expired t), w1) => (Html 410 (expired_page t), w1)
  | (Err _, w1) => (Html 404 not_found_page, w1)
  end.
Proof.
  unfold redirect, try_catch, bind, ret.
  destruct (getUrlByShortCode code w) as [[row|e] w1].
  - now destruct (incrementClickCount code w1) as [[u|[]] w2].
  - now destruct e.
Qed.

End Routes.

(* ================================================================= *)
(** ** The routes over the in-memory link service *)

Section LinkRoutes.
Context {P : Platform}.

Lemma shorten_link (raw : string) (e : option timestamp) (w : World) :
  truthy (trim raw) = true -> isValidUrl (trim raw) = true ->
  handle (PostShorten {| url := Some (PStr raw); expires_at := e |}) w =
  if db_up w then
    match find_by_url (trim raw) (table w) with
    | Some r => (Json 200 (shortened (shortCode r)), w)
    | None =>
        match generate (shortid w) (table w) with
        | (Some c, rest) =>
            (Json 200 (shortened c),
             {| table := (table w ++
                          [{| shortCode := c; originalUrl := trim raw;
                              createdAt := now w; expiresAt := e;
                              clickCount := 0 |}])%list;
                now := now w; shortid := rest; db_up := db_up w |})
        | (None, rest) =>
            (Json 500 (error_json "Failed to shorten"), with_shortid rest w)
        end
    end
  else (Json 500 (error_json "Failed to shorten"), w).
Proof.
  intros Ht Hv. cbn [handle]. rewrite shorten_cases. cbn [url expires_at].
  rewrite Ht, Hv. cbn [andb createShortUrl link_service].
  unfold createShortLink. rewrite trim_idem.
  destruct (db_up w); cbn [negb]; [|reflexivity].
  destruct (find_by_url (trim raw) (table w)); [reflexivity|].
  now destruct (generate (shortid w) (table w)) as [[c|] rest].
Qed.

Lemma stats_link (code : string) (w : World) :
  handle (GetStats code) w =
  if db_up w then
    match find_by_code code (table w) with
    | Some r => (Json 200 (stats_json r), w)
    | None => (Json 404 (error_json "Not found"), w)
    end
  else (Json 404 (error_json "Not found"), w).
Proof.
  cbn [handle]. rewrite stats_cases. cbn [getUrlStats link_service].
  unfold getStats. destruct (db_up w); cbn [negb]; [|reflexivity].
  now destruct (find_by_code code (table w)).
Qed.

Lemma redirect_link (code : string) (w : World) :
  handle (GetShortCode code) w =
  if db_up w then
    match find_by_code code (table w) with
    | Some r =>
        match expired_at (now w) r with
        | Some t => (Html 410 (expired_page t), w)
        | None =>
            (Redirect (originalUrl r), with_table (map (click code) (table w)) w)
        end
    | None => (Html 404 not_found_page, w)
    end
  else (Html 404 not_found_page, w).
Proof.
  cbn [handle]. rewrite redirect_cases.
  cbn [getUrlByShortCode incrementClickCount link_service].
  unfold resolveShortLink, incrementClicks.
  destruct (db_up w) eqn:Eup; cbn [negb]; [|reflexivity].
  destruct (find_by_code code (table w)) as [r|]; [|reflexivity].
  destruct (expired_at (now w) r); [reflexivity|].
  now rewrite Eup.
Qed.

End LinkRoutes.

(* ================================================================= *)
(** ** Runs: what an event does to the table *)

Section Traces.
Context {P : Platform}.

Lemma hit_not_redirect (c : string) (w : World) :
  is_redirect (fst (handle (GetShortCode c) w)) = false ->
  forall code, hit code (Call (GetShortCode c)) w = 0.
Proof. intros H code. unfold hit. rewrite H. now rewrite andb_false_r. Qed.

Lemma step_change (e : Event) (w : World) : Change e w.
Proof.
  destruct e as [req | n up ids].
  2:{ now apply Unchanged. }
  destruct req as [ | | body | code | code | code ].
  - now apply Unchanged.
  - apply Unchanged; [|reflexivity].
    cbn [step handle]. unfold debug_urls. cbn [query_urls link_service].
    unfold select_urls. now destruct (db_up w).
  - assert (H0 : forall code, hit code (Call (PostShorten body)) w = 0)
      by reflexivity.
    pose proof (shorten_cases body w) as E.
    destruct (url body) as [[ |b|m x|raw|items|fields]|];
      try (apply Unchanged;
           [cbn [step handle]; rewrite E;
            try destruct (posted_truthy _); reflexivity | exact H0]).
    destruct (truthy (trim raw) && isValidUrl (trim raw));
      [|apply Unchanged; [cbn [step handle]; now rewrite E | exact H0]].
    cbn [createShortUrl link_service] in E. unfold createShortLink in E.
    rewrite trim_idem in E.
    destruct (db_up w); cbn [negb] in E;
      [|apply Unchanged; [cbn [step handle]; now rewrite E | exact H0]].
    destruct (find_by_url (trim raw) (table w)) eqn:Eu;
      [apply Unchanged; [cbn [step handle]; now rewrite E | exact H0]|].
    destruct (generate (shortid w) (table w)) as [[c|] rest] eqn:Eg.
    + apply (Inserted (Call (PostShorten body)) w c (trim raw) (expires_at body));
        try assumption.
      * exact (generate_fresh _ _ _ _ Eg).
      * cbn [step handle]. now rewrite E.
    + apply Unchanged; [cbn [step handle]; now rewrite E | exact H0].
  - apply Unchanged; [|reflexivity].
    cbn [step]. rewrite stats_link.
    destruct (db_up w); [|reflexivity].
    now destruct (find_by_code code (table w)).
  - now apply Unchanged.
  - pose proof (redirect_link code w) as E.
    destruct (db_up w) eqn:Eup.
    2:{ apply Unchanged; [cbn [step]; now rewrite E|].
        apply hit_not_redirect. now rewrite E. }
    destruct (find_by_code code (table w)) as [r|] eqn:Ec.
    2:{ apply Unchanged; [cbn [step]; now rewrite E|].
        apply hit_not_redirect. now rewrite E. }
    destruct (expired_at (now w) r) as [t|] eqn:Ex.
    { apply Unchanged; [cbn [step]; now rewrite E|].
      apply hit_not_redirect. now rewrite E. }
    apply (Clicked (Call (GetShortCode code)) w code r); try easy.
    + now rewrite E.
    + cbn [step]. now rewrite E.
Qed.
Lemma step_record (e : Event) (w : World) (c : string) (r : ShortLink) :
  find_by_code c (table w) = Some r ->
  find_by_code c (table (step e w)) = Some (clicked (hit c e w) r).
Proof.
  intros Hr. destruct (step_change e w) as [Ht H0 | c' u x _ _ Ht H0 | c' r' -> _ _ _ Hresp Ht].
  - now rewrite Ht, H0, clicked_0.
  - rewrite Ht, H0, clicked_0. now apply find_app_some.
  - rewrite Ht. unfold find_by_code.
    rewrite find_map by (intros; apply click_code).
    fold (find_by_code c (table w)). rewrite Hr. cbn [option_map].
    f_equal. rewrite click_clicked. f_equal.
    unfold hit. rewrite Hresp. cbn [is_redirect]. rewrite andb_true_r.
    destruct (find_by_code_sound _ _ _ Hr) as [_ ->].
    now rewrite String.eqb_sym.
Qed.

Lemma step_url (e : Event) (w : World) (u : string) (r : ShortLink) :
  find_by_url u (table w) = Some r ->
  find_by_url u (table (step e w)) = Some (clicked (hit (shortCode r) e w) r).
Proof.
  intros Hr. destruct (step_change e w) as [Ht H0 | c' u' x _ _ Ht H0 | c' r' -> _ _ _ Hresp Ht].
  - now rewrite Ht, H0, clicked_0.
  - rewrite Ht, H0, clicked_0. now apply find_app_some.
  - rewrite Ht. unfold find_by_url.
    rewrite find_map by (intros; apply click_url).
    fold (find_by_url u (table w)). rewrite Hr. cbn [option_map].
    f_equal. rewrite click_clicked. f_equal.
    unfold hit. rewrite Hresp. cbn [is_redirect]. rewrite andb_true_r.
    now rewrite String.eqb_sym.
Qed.

Lemma run_record (evs : list Event) (w : World) (c : string) (r : ShortLink) :
  find_by_code c (table w) = Some r ->
  find_by_code c (table (run evs w)) = Some (clicked (redirects c evs w) r).
Proof.
  revert w r. induction evs as [|e evs IH]; intros w r Hr; cbn [run redirects].
  - now rewrite clicked_0.
  - rewrite (IH _ _ (step_record e w c r Hr)). now rewrite clicked_clicked.
Qed.

Lemma run_url (evs : list Event) (w : World) (u : string) (r : ShortLink) :
  find_by_url u (table w) = Some r ->
  find_by_url u (table (run evs w)) =
    Some (clicked (redirects (shortCode r) evs w) r).
Proof.
  revert w r. induction evs as [|e evs IH]; intros w r Hr; cbn [run redirects].
  - now rewrite clicked_0.
  - rewrite (IH _ _ (step_url e w u r Hr)). cbn [clicked shortCode].
    now rewrite clicked_clicked.
Qed.

Lemma hit_range (c : string) (e : Event) (w : World) : 0 <= hit c e w <= 1.
Proof.
  unfold hit. destruct e as [[| | | | |c']|]; try lia.
  destruct ((c' =? c) && _); lia.
Qed.

Lemma redirects_nonneg (c : string) (evs : list Event) (w : World) :
  0 <= redirects c evs w.
Proof.
  revert w. induction evs as [|e evs IH]; intros w; cbn [redirects]; [lia|].
  pose proof (hit_range c e w). pose proof (IH (step e w)). lia.
Qed.

Lemma step_unique (e : Event) (w : World) :
  unique (table w) -> unique (table (step e w)).
Proof.
  intros [Hc Hu].
  destruct (step_change e w) as [Ht _ | c u x Fc Fu Ht _ | c r _ _ _ _ _ Ht];
    rewrite Ht.
  - now split.
  - apply find_none_count in Fc, Fu. split.
    + intros c'. unfold count_code. rewrite count_app.
      unfold count at 2. cbn [filter shortCode].
      destruct (c =? c') eqn:E; cbn [List.length].
      * apply String.eqb_eq in E. subst c'. rewrite Fc. lia.
      * pose proof (Hc c'). unfold count_code in *. lia.
    + intros u'. unfold count_url. rewrite count_app.
      unfold count at 2. cbn [filter originalUrl].
      destruct (u =? u') eqn:E; cbn [List.length].
      * apply String.eqb_eq in E. subst u'. rewrite Fu. lia.
      * pose proof (Hu u'). unfold count_url in *. lia.
  - split.
    + intros c'. unfold count_code.
      rewrite count_map by (intros; apply click_code). apply Hc.
    + intros u'. unfold count_url.
      rewrite count_map by (intros; apply click_url). apply Hu.
Qed.

Lemma run_unique (evs : list Event) (w : World) :
  unique (table w) -> unique (table (run evs w)).
Proof.
  revert w. induction evs as [|e evs IH]; intros w H; cbn [run]; [exact H|].
  apply IH. now apply step_unique.
Qed.

Lemma boot_unique (evs : list Event) (n : timestamp) (up : bool) (ids : list string) :
  unique (table (run evs (boot n up ids))).
Proof.
  apply run_unique. split; intros; cbn; lia.
Qed.

(** With unique codes, the record a URL lookup finds is the one its code
    finds. *)
Lemma url_then_code (tbl : list ShortLink) (u : string) (r : ShortLink) :
  unique tbl -> find_by_url u tbl = Some r ->
  find_by_code (shortCode r) tbl = Some r.
Proof.
  intros [Hc _] Hr. destruct (find_by_url_sound _ _ _ Hr) as [Hin _].
  apply unique_find; [apply Hc | exact Hin | apply String.eqb_refl].
Qed.

End Traces.

(* ================================================================= *)
(** ** What the routes answer over any service *)

Section AnyService.
Context {P : Platform} {W : Type} {S : UrlService W}.

(** C8: every successful [POST /api/shorten] answers a JSON object holding
    [short_url] and [short_code], where [short_url] is the base URL, a
    slash, and the short code. *)
Theorem shorten_reports_short_url
    (body : ShortenBody) (w w' : W) (resp : Response) :
  handle (PostShorten body) w = (resp, w') ->
  status_code resp = 200 ->
  exists short_code short_url,
    resp = Json 200 (JObj [("short_url", JStr short_url);
                           ("short_code", JStr short_code)]) /\
    get_field "short_code" (JObj [("short_url", JStr short_url);
                                  ("short_code", JStr short_code)])
      = Some (JStr short_code) /\
    short_url = BASE_URL ++ "/" ++ short_code.
Proof.
  cbn [handle]. rewrite shorten_cases. intros H Hs.
  destruct (url body) as [[ |b|m x|raw|items|fields]|];
    try (destruct (posted_truthy _); injection H as <- <-; discriminate).
  - destruct (truthy (trim raw) && isValidUrl (trim raw)).
    + destruct (createShortUrl (trim raw) (expires_at body) w) as [[c|e] w1];
        injection H as <- <-; [|discriminate].
      now exists c, (BASE_URL ++ "/" ++ c).
    + injection H as <- <-. discriminate.
  - injection H as <- <-. discriminate.
Qed.

(** C10: a body without [url], or whose [url] is a string that trims to
    the empty string (or is null or another falsy value), is answered 400
    whatever the service is, and the world is left as it was: the service
    is not called. *)
Theorem shorten_without_url_rejected (body : ShortenBody) (w : W) :
  match url body with
  | None => True
  | Some (PStr u) => trim u = EmptyString
  | Some v => posted_truthy v = false
  end ->
  handle (PostShorten body) w = (Json 400 (error_json "Invalid URL"), w).
Proof.
  cbn [handle]. rewrite shorten_cases.
  destruct (url body) as [[ |b|m x|raw|items|fields]|];
    try reflexivity; try (now intros ->).
Qed.

(** C6, as the code has it: a URL that does not parse, or that holds
    [localhost] or [azurewebsites.net] anywhere, is answered 400 whatever
    the service is, and the world is left as it was.  A URL that holds the
    base URL is among them whenever the base URL itself holds one of the
    two words. *)
Theorem unparsable_or_blocklisted_url_rejected
    (raw : string) (e : option timestamp) (w : W) :
  URL_parses (trim raw) = false \/
  includes (trim raw) "localhost" = true \/
  includes (trim raw) "azurewebsites.net" = true \/
  (includes (trim raw) BASE_URL = true /\
   (includes BASE_URL "localhost" = true \/
    includes BASE_URL "azurewebsites.net" = true)) ->
  isValidUrl (trim raw) = false /\
  handle (PostShorten {| url := Some (PStr raw); expires_at := e |}) w
    = (Json 400 (error_json "Invalid URL"), w).
Proof.
  intros H.
  assert (Hv : isValidUrl (trim raw) = false).
  { unfold isValidUrl. destruct (URL_parses (trim raw)); [|reflexivity].
    destruct H as [H | [H | [H | [Hb [H | H]]]]].
    - discriminate.
    - now rewrite H.
    - rewrite H. now rewrite orb_true_r.
    - now rewrite (includes_trans _ _ _ Hb H).
    - rewrite (includes_trans _ _ _ Hb H). now rewrite orb_true_r. }
  split; [exact Hv|].
  cbn [handle]. rewrite shorten_cases. cbn [url]. rewrite Hv.
  now rewrite andb_false_r.
Qed.

(** C5, as the code has it: each route on its own, for a rejection with
    any error at one call in any world.  On [POST /api/shorten] every
    rejection of [createShortUrl], a failure of the store included,
    reaches the caller as 500 with the fixed message; on the stats route
    every rejection is answered 404; on the redirect route every rejection
    of the lookup, or of the click count after it, that is not marked
    expired is answered 404; on the debug route a failed query is answered
    500 with the driver's own message. *)
Theorem store_failure_by_route (w : W) :
  (forall raw e err w1,
     truthy (trim raw) = true ->
     isValidUrl (trim raw) = true ->
     createShortUrl (trim raw) e w = (Err err, w1) ->
     handle (PostShorten {| url := Some (PStr raw); expires_at := e |}) w
       = (Json 500 (error_json "Failed to shorten"), w1)) /\
  (forall code err w2,
     getUrlStats code w = (Err err, w2) ->
     handle (GetStats code) w = (Json 404 (error_json "Not found"), w2)) /\
  (forall code err w3,
     (forall t, err <> Expired t) ->
     getUrlByShortCode code w = (Err err, w3) ->
     handle (GetShortCode code) w = (Html 404 not_found_page, w3)) /\
  (forall code row w' err w3,
     (forall t, err <> Expired t) ->
     getUrlByShortCode code w = (Ok row, w') ->
     incrementClickCount code w' = (Err err, w3) ->
     handle (GetShortCode code) w = (Html 404 not_found_page, w3)) /\
  (forall message w4,
     query_urls w = (QueryError message, w4) ->
     handle GetDebugUrls w = (Json 500 (error_json message), w4)).
Proof.
  cbn [handle]. repeat split.
  - intros raw e err w1 Ht Hv Hc. rewrite shorten_cases. cbn [url expires_at].
    now rewrite Ht, Hv, Hc.
  - intros code err w2 Hs. now rewrite stats_cases, Hs.
  - intros code err w3 Hne Hg. rewrite redirect_cases, Hg.
    destruct err as [|t|cause]; try reflexivity. now elim (Hne t).
  - intros code row w' err w3 Hne Hg Hi. rewrite redirect_cases, Hg, Hi.
    destruct err as [|t|cause]; try reflexivity. now elim (Hne t).
  - intros message w4 Hq. unfold debug_urls. now rewrite Hq.
Qed.

(** C9: the QR route answers the PNG of the base URL, a slash and the code
    it was given, for every service and every world, which it leaves as it
    was: the answer is the same whatever the store holds. *)
Theorem qr_never_consults_store (w : W) (s : string) :
  handle (GetQr s) w = (QrPng "image/png" (BASE_URL ++ "/" ++ s) 256 1, w) /\
  forall (W' : Type) (S' : UrlService W') (w' : W'),
    fst (handle (GetQr s) w') = fst (handle (GetQr s) w).
Proof. split; reflexivity. Qed.

End AnyService.

(* ================================================================= *)
(** ** Creating a link *)

Section Creation.
Context {P : Platform}.

(** A 200 from the shorten route: the URL was accepted, the store answered,
    and the code is that of the record already holding the URL, or of the
    one appended for it. *)
Lemma shorten_outcome (raw : string) (e : option timestamp) (w w1 : World) (c : string) :
  handle (PostShorten {| url := Some (PStr raw); expires_at := e |}) w
    = (Json 200 (shortened c), w1) ->
  truthy (trim raw) = true /\ isValidUrl (trim raw) = true /\ db_up w = true /\
  ((exists r, find_by_url (trim raw) (table w) = Some r /\
              shortCode r = c /\ w1 = w) \/
   (find_by_url (trim raw) (table w) = None /\
    find_by_code c (table w) = None /\
    table w1 = (table w ++ [new_link c (trim raw) w e])%list)).
Proof.
  intros H.
  assert (Hacc : truthy (trim raw) && isValidUrl (trim raw) = true).
  { cbn [handle] in H. rewrite shorten_cases in H. cbn [url] in H.
    destruct (truthy (trim raw) && isValidUrl (trim raw)); [reflexivity|].
    discriminate. }
  apply andb_true_iff in Hacc. destruct Hacc as [Ht Hv].
  rewrite (shorten_link raw e w Ht Hv) in H.
  destruct (db_up w); [|discriminate].
  repeat split; try assumption.
  destruct (find_by_url (trim raw) (table w)) as [r|] eqn:Eu.
  - left. exists r. injection H as _ Hc Hw. now subst.
  - right. destruct (generate (shortid w) (table w)) as [[c'|] rest] eqn:Eg;
      [|discriminate].
    injection H as _ Hc Hw. subst c' w1.
    repeat split. exact (generate_fresh _ _ _ _ Eg).
Qed.

(** After a 200, one and the same record answers for the URL and for the
    returned code. *)
Lemma created_record (raw : string) (e : option timestamp) (w w1 : World) (c : string) :
  unique (table w) ->
  handle (PostShorten {| url := Some (PStr raw); expires_at := e |}) w
    = (Json 200 (shortened c), w1) ->
  exists r,
    find_by_url (trim raw) (table w1) = Some r /\
    find_by_code c (table w1) = Some r /\
    originalUrl r = trim raw /\
    match find_by_url (trim raw) (table w) with
    | Some r0 => r = r0 /\ w1 = w
    | None => r = new_link c (trim raw) w e /\ find_by_code c (table w) = None
    end.
Proof.
  intros Hu H.
  destruct (shorten_outcome raw e w w1 c H)
    as [_ [_ [_ [[r [Er [Ec ->]]] | [Er [Ec Et]]]]]].
  - exists r. rewrite Er. repeat split; try easy.
    + subst c. now apply url_then_code with (u := trim raw).
    + now destruct (find_by_url_sound _ _ _ Er).
  - exists (new_link c (trim raw) w e). rewrite Er, Et. repeat split; try easy.
    + unfold find_by_url. rewrite find_app_none by exact Er.
      cbn. now rewrite String.eqb_refl.
    + unfold find_by_code. rewrite find_app_none by exact Ec.
      cbn. now rewrite String.eqb_refl.
Qed.

Lemma shorten_succeeds (raw : string) (e : option timestamp) (w : World) :
  db_up w = true -> truthy (trim raw) = true -> isValidUrl (trim raw) = true ->
  (find_by_url (trim raw) (table w) = None ->
   exists c, In c (shortid w) /\ find_by_code c (table w) = None) ->
  exists c w1,
    handle (PostShorten {| url := Some (PStr raw); expires_at := e |}) w
      = (Json 200 (shortened c), w1).
Proof.
  intros Hup Ht Hv Hs. rewrite (shorten_link raw e w Ht Hv), Hup.
  destruct (find_by_url (trim raw) (table w)) as [r|]; [now eexists; eexists|].
  destruct (generate_some _ _ (Hs eq_refl)) as [c [rest ->]].
  now eexists; eexists.
Qed.

End Creation.

(* ================================================================= *)
(** ** Resolving, counting and reporting *)

Section Links.
Context {P : Platform}.

Lemma lines_includes (l : string) (ls : list string) :
  In l ls -> includes (lines ls) l = true.
Proof.
  induction ls as [|a ls IH]; [intros []|].
  intros [-> | Hin]; apply includes_split; cbn [lines].
  - now exists EmptyString, (nl ++ lines ls).
  - destruct (proj1 (includes_split _ _) (IH Hin)) as [x [y ->]].
    exists (a ++ nl ++ x), y. now rewrite !append_assoc.
Qed.

Lemma expired_page_shows (t : timestamp) :
  includes (expired_page t) ("Expired at: " ++ toLocaleString t) = true.
Proof.
  set (l := "            <p class=" ++ dq ++ "expiry-time" ++ dq
            ++ ">Expired at: " ++ toLocaleString t ++ "</p>").
  apply includes_trans with (mid := l).
  - unfold expired_page. fold l.
    match goal with
    | |- includes (nl ++ lines ?ls ++ ?x) l = true =>
        assert (Hin : In l ls) by
          (cbn; repeat (try (left; reflexivity); right));
        destruct (proj1 (includes_split _ _) (lines_includes l ls Hin))
          as [a [b ->]];
        apply includes_split; exists (nl ++ a), (b ++ x)
    end.
    now rewrite !append_assoc.
  - apply includes_split.
    exists ("            <p class=" ++ dq ++ "expiry-time" ++ dq ++ ">"), "</p>".
    reflexivity.
Qed.

(** C1: when the store answers and the record of a code has an expiration
    earlier than now, the lookup fails with [Expired], the redirect route
    answers 410 with the page that shows the expiration instant, and no
    click is counted: the world, and with it the record, is as before. *)
Theorem expired_link_is_gone
    (w : World) (code : string) (r : ShortLink) (t : timestamp) :
  db_up w = true ->
  find_by_code code (table w) = Some r ->
  expiresAt r = Some t ->
  t < now w ->
  getUrlByShortCode code w = (Err (Expired t), w) /\
  handle (GetShortCode code) w = (Html 410 (expired_page t), w) /\
  includes (expired_page t) ("Expired at: " ++ toLocaleString t) = true /\
  clicks code (step (Call (GetShortCode code)) w) = Some (clickCount r) /\
  hit code (Call (GetShortCode code)) w = 0.
Proof.
  intros Hup Hr He Ht.
  assert (Hx : expired_at (now w) r = Some t).
  { unfold expired_at. rewrite He.
    now rewrite (proj2 (Z.ltb_lt t (now w)) Ht). }
  assert (Hh : handle (GetShortCode code) w = (Html 410 (expired_page t), w)).
  { now rewrite redirect_link, Hup, Hr, Hx. }
  repeat split.
  - cbn [getUrlByShortCode link_service]. unfold resolveShortLink.
    now rewrite Hup, Hr, Hx.
  - exact Hh.
  - apply expired_page_shows.
  - cbn [step]. rewrite Hh. unfold clicks. cbn [snd]. now rewrite Hr.
  - unfold hit. rewrite Hh. cbn [fst is_redirect]. now rewrite andb_false_r.
Qed.

(** C7: with the store answering, the stats route answers 404 for a code
    no record has, and otherwise the five fields of the record, whatever
    the clock says: an expired record is reported like a live one. *)
Theorem stats_is_a_plain_snapshot (w : World) (code : string) :
  db_up w = true ->
  match find_by_code code (table w) with
  | None =>
      getUrlStats code w = (Err NotFound, w) /\
      handle (GetStats code) w = (Json 404 (error_json "Not found"), w)
  | Some r =>
      let snapshot :=
        JObj [("short_code", JStr (shortCode r));
              ("original_url", JStr (originalUrl r));
              ("click_count", JNum (clickCount r));
              ("created_at", JDate (createdAt r));
              ("expires_at", match expiresAt r with
                             | Some t => JDate t
                             | None => JNull
                             end)] in
      handle (GetStats code) w = (Json 200 snapshot, w) /\
      forall n, fst (handle (GetStats code) (at_time n w)) = Json 200 snapshot
  end.
Proof.
  intros Hup. destruct (find_by_code code (table w)) as [r|] eqn:Hr.
  - split.
    + now rewrite stats_link, Hup, Hr.
    + intros n. rewrite stats_link. cbn [at_time db_up table].
      now rewrite Hup, Hr.
  - split.
    + cbn [getUrlStats link_service]. unfold getStats. now rewrite Hup, Hr.
    + now rewrite stats_link, Hup, Hr.
Qed.

Lemma hit_means_redirected (c : string) (e : Event) (w : World) :
  hit c e w = 1 ->
  e = Call (GetShortCode c) /\
  exists r, find_by_code c (table w) = Some r /\
            expired_at (now w) r = None /\
            db_up w = true /\
            fst (handle (GetShortCode c) w) = Redirect (originalUrl r).
Proof.
  unfold hit. destruct e as [[| | | | |c']|]; try discriminate.
  destruct (c' =? c) eqn:Ec; cbn [andb]; [|discriminate].
  apply String.eqb_eq in Ec. subst c'.
  rewrite redirect_link.
  destruct (db_up w); [|discriminate].
  destruct (find_by_code c (table w)) as [r|]; [|discriminate].
  destruct (expired_at (now w) r) eqn:Ex; [discriminate|].
  intros _. split; [reflexivity|]. exists r. cbn [fst]. now repeat split.
Qed.

(** C4: a record starts at 0 clicks when the shorten route creates it;
    from then on its count after any run is the number of requests for its
    code that were answered by a redirect; one more event adds 1 exactly
    when it is such a request, which needs the record found and not
    expired, and adds 0 otherwise; and the stats route reports that
    number. *)
Theorem click_count_counts_redirects
    (w w1 : World) (raw : string) (x : option timestamp) (c : string)
    (evs : list Event) (e : Event) :
  handle (PostShorten {| url := Some (PStr raw); expires_at := x |}) w
    = (Json 200 (shortened c), w1) ->
  find_by_code c (table w) = None ->
  let w2 := run evs w1 in
  let n := redirects c evs w1 in
  clicks c w1 = Some 0 /\
  clicks c w2 = Some n /\
  0 <= n /\
  clicks c (step e w2) = Some (n + hit c e w2) /\
  0 <= hit c e w2 <= 1 /\
  (hit c e w2 = 1 ->
   e = Call (GetShortCode c) /\
   exists r, find_by_code c (table w2) = Some r /\
             expired_at (now w2) r = None /\
             fst (handle (GetShortCode c) w2) = Redirect (originalUrl r)) /\
  (db_up w2 = true ->
   exists r, handle (GetStats c) w2 = (Json 200 (stats_json r), w2) /\
             get_field "click_count" (stats_json r) = Some (JNum n)).
Proof.
  intros H Hnew w2 n.
  destruct (shorten_outcome raw x w w1 c H)
    as [_ [_ [_ [[r [Er [Ec _]]] | [Er [_ Et]]]]]].
  { destruct (find_by_url_sound _ _ _ Er) as [Hin _].
    pose proof (find_none _ _ Hnew r Hin) as Hn. cbn in Hn.
    rewrite Ec, String.eqb_refl in Hn. discriminate. }
  assert (H1 : find_by_code c (table w1) = Some (new_link c (trim raw) w x)).
  { rewrite Et. unfold find_by_code. rewrite find_app_none by exact Hnew.
    cbn. now rewrite String.eqb_refl. }
  pose proof (run_record evs w1 c _ H1) as H2. fold w2 n in H2.
  pose proof (step_record e w2 c _ H2) as H3.
  split. { unfold clicks. now rewrite H1. }
  split. { unfold clicks. rewrite H2. reflexivity. }
  split. { apply redirects_nonneg. }
  split. { unfold clicks. rewrite H3. reflexivity. }
  split. { apply hit_range. }
  split.
  - intros Hh. destruct (hit_means_redirected c e w2 Hh) as [E [r [A [B [_ D]]]]].
    split; [exact E | now exists r].
  - intros Hup. eexists. rewrite stats_link, Hup, H2. split; reflexivity.
Qed.

End Links.

(* ================================================================= *)
(** ** Create, then create again or resolve *)

Section RoundTrips.
Context {P : Platform}.

Lemma expired_at_clicked (n k : Z) (r : ShortLink) :
  expired_at n (clicked k r) = expired_at n r.
Proof. reflexivity. Qed.

(** The round trip in general: in a world reached from an empty table, an
    accepted URL posted while the store answers (and, when the URL is new,
    while the generator still has an unused code) gets a code; the record
    under that code is the one already stored for the URL, or a new one
    with the expiration of the request; and at any later time at which the
    store answers and that record's expiration, if it has one, has not
    passed, the redirect route hands the trimmed URL to [res.redirect]. *)
Theorem round_trip_while_not_expired
    (evs : list Event) (n0 : timestamp) (up0 : bool) (ids0 : list string)
    (raw : string) (x : option timestamp) (later : list Event) :
  let w := run evs (boot n0 up0 ids0) in
  let u := trim raw in
  db_up w = true ->
  truthy u = true ->
  isValidUrl u = true ->
  (find_by_url u (table w) = None ->
   exists c, In c (shortid w) /\ find_by_code c (table w) = None) ->
  exists c w1 r,
    handle (PostShorten {| url := Some (PStr raw); expires_at := x |}) w
      = (Json 200 (shortened c), w1) /\
    find_by_code c (table w1) = Some r /\
    match find_by_url u (table w) with
    | Some r0 => r = r0
    | None => expiresAt r = x
    end /\
    let w2 := run later w1 in
    (db_up w2 = true ->
     (forall t, expiresAt r = Some t -> now w2 <= t) ->
     fst (handle (GetShortCode c) w2) = Redirect u).
Proof.
  intros w u Hup Ht Hv Hs.
  destruct (shorten_succeeds raw x w Hup Ht Hv Hs) as [c [w1 H]].
  destruct (created_record raw x w w1 c (boot_unique evs n0 up0 ids0) H)
    as [r [_ [Hc [Hurl Hm]]]].
  exists c, w1, r. split; [exact H|]. split; [exact Hc|]. split.
  - fold u in Hm. destruct (find_by_url u (table w)); [tauto|].
    destruct Hm as [-> _]. reflexivity.
  - intros w2 Hup2 Hlive.
    rewrite redirect_link, Hup2.
    pose proof (run_record later w1 c r Hc) as H2. fold w2 in H2.
    rewrite H2, expired_at_clicked.
    assert (Hx : expired_at (now w2) r = None).
    { unfold expired_at. destruct (expiresAt r) as [t|]; [|reflexivity].
      pose proof (Hlive t eq_refl).
      now rewrite (proj2 (Z.ltb_ge t (now w2))). }
    rewrite Hx. cbn [fst clicked originalUrl]. now rewrite Hurl.
Qed.

(** C2: for an accepted URL with no expiration set (none on the request,
    and none on the record already stored for it, if there is one), in a
    world reached from an empty table with the store answering: the create
    call resolves to a code, the shorten route answers 200 with it, and at
    every later time at which the store answers the lookup of that code
    resolves to a row whose [originalUrl] is exactly the URL as it was
    accepted, which the redirect route hands to [res.redirect]. *)
Theorem round_trip_without_expiration
    (evs : list Event) (n0 : timestamp) (up0 : bool) (ids0 : list string)
    (raw : string) (later : list Event) :
  let w := run evs (boot n0 up0 ids0) in
  let u := trim raw in
  db_up w = true ->
  truthy u = true ->
  isValidUrl u = true ->
  (forall r0, find_by_url u (table w) = Some r0 -> expiresAt r0 = None) ->
  (find_by_url u (table w) = None ->
   exists c, In c (shortid w) /\ find_by_code c (table w) = None) ->
  exists c w1,
    createShortUrl u None w = (Ok c, w1) /\
    handle (PostShorten {| url := Some (PStr raw); expires_at := None |}) w
      = (Json 200 (shortened c), w1) /\
    let w2 := run later w1 in
    (db_up w2 = true ->
     exists r,
       getUrlByShortCode c w2 = (Ok r, w2) /\
       originalUrl r = u /\
       fst (handle (GetShortCode c) w2) = Redirect u).
Proof.
  intros w u Hup Ht Hv Hnone Hs.
  destruct (shorten_succeeds raw None w Hup Ht Hv Hs) as [c [w1 H]].
  destruct (created_record raw None w w1 c (boot_unique evs n0 up0 ids0) H)
    as [r [_ [Hc [Hurl Hm]]]].
  assert (Hx : expiresAt r = None).
  { fold u in Hm. destruct (find_by_url u (table w)) as [r0|] eqn:E.
    - destruct Hm as [-> _]. now apply Hnone.
    - destruct Hm as [-> _]. reflexivity. }
  exists c, w1. split; [|split; [exact H|]].
  - pose proof H as H'. cbn [handle] in H'. rewrite shorten_cases in H'.
    cbn [url expires_at] in H'. fold u in H'. rewrite Ht, Hv in H'.
    cbn [andb] in H'.
    destruct (createShortUrl u None w) as [[c'|err] w'];
      [|discriminate].
    injection H' as _ Hcc Hw. now subst.
  - intros w2 Hup2.
    pose proof (run_record later w1 c r Hc) as H2. fold w2 in H2.
    exists (clicked (redirects c later w1) r).
    assert (Hl : expired_at (now w2) (clicked (redirects c later w1) r) = None).
    { unfold expired_at. cbn [clicked expiresAt]. now rewrite Hx. }
    split; [|split].
    + cbn [getUrlByShortCode link_service]. unfold resolveShortLink.
      now rewrite Hup2, H2, Hl.
    + exact Hurl.
    + rewrite redirect_link, Hup2, H2, Hl. cbn [fst clicked originalUrl].
      now rewrite Hurl.
Qed.

(** C3: in a world reached from an empty table, once the shorten route has
    answered a URL with a code, any later request for the same trimmed URL
    made while the store answers gets the same code and leaves the world as
    it is, whatever expiration it carries; the table holds exactly one
    record for the URL, and its expiration and creation time are those it
    had after the first request. *)
Theorem second_create_returns_same_code
    (evs : list Event) (n0 : timestamp) (up0 : bool) (ids0 : list string)
    (raw1 raw2 : string) (x1 x2 : option timestamp) (c : string)
    (w1 : World) (between : list Event) :
  let w := run evs (boot n0 up0 ids0) in
  handle (PostShorten {| url := Some (PStr raw1); expires_at := x1 |}) w
    = (Json 200 (shortened c), w1) ->
  let w2 := run between w1 in
  trim raw2 = trim raw1 ->
  db_up w2 = true ->
  handle (PostShorten {| url := Some (PStr raw2); expires_at := x2 |}) w2
    = (Json 200 (shortened c), w2) /\
  count_url (trim raw1) (table w2) = 1%nat /\
  exists r1 r2,
    find_by_code c (table w1) = Some r1 /\
    find_by_code c (table w2) = Some r2 /\
    originalUrl r2 = trim raw1 /\
    expiresAt r2 = expiresAt r1 /\
    createdAt r2 = createdAt r1.
Proof.
  intros w H w2 Htrim Hup2.
  pose proof (boot_unique evs n0 up0 ids0) as Hu. fold w in Hu.
  destruct (shorten_outcome raw1 x1 w w1 c H) as [Ht [Hv _]].
  destruct (created_record raw1 x1 w w1 c Hu H) as [r1 [Hr [Hc [Hurl _]]]].
  assert (Hu1 : unique (table w1)).
  { pose proof (step_unique (Call (PostShorten {| url := Some (PStr raw1); expires_at := x1 |})) w Hu) as Hs.
    cbn [step] in Hs. now rewrite H in Hs. }
  assert (Hu2 : unique (table w2)) by now apply run_unique.
  destruct (find_by_code_sound _ _ _ Hc) as [_ Hcode].
  pose proof (run_url between w1 _ r1 Hr) as Hr2. fold w2 in Hr2.
  rewrite Hcode in Hr2.
  split.
  - rewrite shorten_link by (rewrite Htrim; assumption).
    rewrite Hup2, Htrim, Hr2. cbn [clicked shortCode]. now rewrite Hcode.
  - split.
    + destruct Hu2 as [_ Hle]. pose proof (Hle (trim raw1)).
      pose proof (find_count_pos _ _ _ Hr2). unfold count_url in *. lia.
    + exists r1, (clicked (redirects c between w1) r1).
      repeat split; try assumption.
      exact (run_record between w1 c r1 Hc).
Qed.

End RoundTrips.

(* ================================================================= *)
(** ** Trimming keeps a word that starts and ends with a plain character *)

Lemma includes_drop (a c : ascii) (s p' : string) :
  a <> c -> includes (String a s) (String c p') = true ->
  includes s (String c p') = true.
Proof.
  intros Hne H. cbn [includes prefix] in H.
  destruct (ascii_dec c a) as [->|_]; [now elim Hne|]. exact H.
Qed.

Lemma plain_differs (a c : ascii) : plain a = false -> plain c = true -> a <> c.
Proof. intros Ha Hc ->. congruence. Qed.

Lemma includes_trimStart (s p : string) (c : ascii) (p' : string) :
  p = String c p' -> plain c = true ->
  includes s p = true -> includes (trimStart s) p = true.
Proof.
  intros -> Hc. induction s as [s IH] using by_length. intros H.
  rewrite trimStart_eq. destruct (strip1 s) as [r|] eqn:E; [|exact H].
  apply IH; [now apply strip1_shorter|].
  destruct (strip1_drops s r E)
    as [[a [-> A]] | [[a [b [-> [A Bq]]]] | [a [b [d [-> [A [Bq D]]]]]]]].
  - exact (includes_drop _ _ _ _ (plain_differs _ _ A Hc) H).
  - apply (includes_drop b c); [exact (plain_differs _ _ Bq Hc)|].
    exact (includes_drop _ _ _ _ (plain_differs _ _ A Hc) H).
  - apply (includes_drop d c); [exact (plain_differs _ _ D Hc)|].
    apply (includes_drop b c); [exact (plain_differs _ _ Bq Hc)|].
    exact (includes_drop _ _ _ _ (plain_differs _ _ A Hc) H).
Qed.

(** A string that holds a plain character is not all white space. *)
Lemma plain_not_blank (x y : string) (l : ascii) :
  plain l = true -> trimStart (x ++ String l y) <> EmptyString.
Proof.
  intros Hl. induction x as [x IH] using by_length.
  rewrite trimStart_eq. destruct (strip1 (x ++ String l y)) as [r|] eqn:E.
  2:{ destruct x; discriminate. }
  destruct (strip1_drops _ r E)
    as [[a [Hx A]] | [[a [b [Hx [A Bq]]]] | [a [b [d [Hx [A [Bq D]]]]]]]].
  - destruct x as [|a' x]; cbn [append] in Hx; inversion Hx; subst;
      try congruence; apply IH; cbn; lia.
  - destruct x as [|a' [|b' x]]; cbn [append] in Hx; inversion Hx; subst;
      try congruence; apply IH; cbn; lia.
  - destruct x as [|a' [|b' [|d' x]]]; cbn [append] in Hx; inversion Hx; subst;
      try congruence; apply IH; cbn; lia.
Qed.

Lemma trimEnd_keep (x y : string) (l : ascii) :
  plain l = true -> trimEnd (x ++ String l y) = x ++ String l (trimEnd y).
Proof.
  intros Hl. induction x as [|a x IH].
  - cbn [append trimEnd]. pose proof (plain_not_blank EmptyString y l Hl) as H.
    cbn [append] in H. now destruct (trimStart (String l y)).
  - cbn [append trimEnd]. pose proof (plain_not_blank (String a x) y l Hl) as H.
    cbn [append] in H. rewrite IH.
    now destruct (trimStart (String a (x ++ String l y))).
Qed.

Lemma includes_trim (s p : string) (c l : ascii) (p' q : string) :
  p = String c p' -> plain c = true ->
  p = q ++ String l EmptyString -> plain l = true ->
  includes s p = true -> includes (trim s) p = true.
Proof.
  intros Hp Hc Hq Hl H. unfold trim.
  pose proof (includes_trimStart s p c p' Hp Hc H) as H1.
  apply includes_split in H1. destruct H1 as [a [b E]]. rewrite E, Hq.
  rewrite !append_assoc. cbn [append].
  rewrite <- append_assoc, trimEnd_keep by exact Hl.
  apply includes_split. exists a, (trimEnd b).
  rewrite !append_assoc. reflexivity.
Qed.

(* ================================================================= *)
(** ** More of server.js, over any service *)

Section MoreRoutes.
Context {P : Platform} {W : Type} {S : UrlService W}.

(** The shorten route looks only at the trimmed [url]: white space around
    it changes neither the answer nor what is left of the world. *)
Theorem shorten_ignores_surrounding_space
    (raw : string) (e : option timestamp) (w : W) :
  handle (PostShorten {| url := Some (PStr raw); expires_at := e |}) w
  = handle (PostShorten {| url := Some (PStr (trim raw)); expires_at := e |}) w.
Proof.
  cbn [handle]. rewrite !shorten_cases. cbn [url expires_at].
  now rewrite trim_idem.
Qed.

(** Each route answers with one of a few statuses: the stats route and the
    redirect route never answer 500, the shorten route never 404.  The
    root, debug and stats routes always answer JSON, the QR and redirect
    routes never do, and the shorten route does unless [url] is truthy and
    not a string: then [url.trim()] throws outside the [try], Express
    answers 500 with its error page, and the world is left as it was. *)
Theorem route_status_codes (req : Request) (w : W) :
  let r := fst (handle req w) in
  match req with
  | GetRoot => status_code r = 200 /\ is_json r = true
  | GetDebugUrls => (status_code r = 200 \/ status_code r = 500) /\ is_json r = true
  | PostShorten body =>
      (status_code r = 200 \/ status_code r = 400 \/ status_code r = 500) /\
      is_json r = negb (crashes body) /\
      (crashes body = true ->
       handle req w = (Html 500 (error_page "url.trim is not a function"), w))
  | GetStats _ => (status_code r = 200 \/ status_code r = 404) /\ is_json r = true
  | GetQr _ => status_code r = 200 /\ is_json r = false
  | GetShortCode _ =>
      (status_code r = 302 \/ status_code r = 404 \/ status_code r = 410) /\
      is_json r = false
  end.
Proof.
  destruct req as [| |body|code|code|code]; cbn [handle].
  - now split.
  - unfold debug_urls. destruct (query_urls w) as [[[rows|]|msg] w']; cbn; tauto.
  - rewrite shorten_cases. unfold crashes.
    destruct (url body) as [[ |b|m x|raw|items|fields]|];
      try (destruct (posted_truthy _) eqn:E; cbn; intuition congruence);
      try (cbn; intuition congruence).
    destruct (truthy (trim raw) && isValidUrl (trim raw));
      [|cbn; intuition congruence].
    destruct (createShortUrl (trim raw) (expires_at body) w) as [[c|err] w'];
      cbn; intuition congruence.
  - rewrite stats_cases. destruct (getUrlStats code w) as [[row|err] w']; cbn; tauto.
  - now split.
  - rewrite redirect_cases.
    destruct (getUrlByShortCode code w) as [[row|[]] w1]; try (cbn; tauto).
    destruct (incrementClickCount code w1) as [[u|[]] w2]; cbn; tauto.
Qed.

(** The shorten route answers 400 exactly when the body has no usable
    [url] and [url.trim()] does not throw, whatever the service does, and
    then leaves the world alone; when [url.trim()] throws the answer is
    500 and the world is left alone too; otherwise the world is what
    [createShortUrl], called on the trimmed [url] and the body's
    [expires_at], leaves, and the answer is 500 exactly when that call
    rejects. *)
Theorem shorten_blames_input_or_service (body : ShortenBody) (w : W) :
  let r := handle (PostShorten body) w in
  (status_code (fst r) = 400 <->
   accepted_url body = None /\ crashes body = false) /\
  (accepted_url body = None -> snd r = w) /\
  (crashes body = true -> status_code (fst r) = 500) /\
  (forall u, accepted_url body = Some u ->
     snd r = snd (createShortUrl u (expires_at body) w) /\
     (status_code (fst r) = 500 <->
      exists err, fst (createShortUrl u (expires_at body) w) = Err err)).
Proof.
  cbn zeta. cbn [handle]. rewrite shorten_cases. unfold accepted_url, crashes.
  destruct (url body) as [[ |b|m x|raw|items|fields]|];
    try (destruct (posted_truthy _) eqn:E; cbn;
         repeat split; intros; intuition congruence);
    try (cbn; repeat split; intros; intuition congruence).
  destruct (truthy (trim raw) && isValidUrl (trim raw)).
  2:{ cbn. repeat split; intros; intuition congruence. }
  destruct (createShortUrl (trim raw) (expires_at body) w) as [[c|err] w'] eqn:E.
  - split; [split; [cbn; discriminate | intros [? _]; discriminate]|].
    split; [discriminate|]. split; [discriminate|].
    intros u Hu. injection Hu as <-. rewrite E. cbn. split; [reflexivity|].
    split; [discriminate | intros [err H]; discriminate].
  - split; [split; [cbn; discriminate | intros [? _]; discriminate]|].
    split; [discriminate|]. split; [discriminate|].
    intros u Hu. injection Hu as <-. rewrite E. cbn. split; [reflexivity|].
    split; [intros _; now exists err | reflexivity].
Qed.

(** The redirect route sends a redirect exactly when the lookup and then
    the click count both succeed, to the [original_url] of the row the
    lookup gave; when the lookup rejects, the count is not attempted. *)
Theorem redirect_needs_lookup_and_count (code u : string) (w w' : W) :
  handle (GetShortCode code) w = (Redirect u, w') <->
  exists row w1,
    getUrlByShortCode code w = (Ok row, w1) /\
    incrementClickCount code w1 = (Ok tt, w') /\
    u = originalUrl row.
Proof.
  cbn [handle]. rewrite redirect_cases. split.
  - destruct (getUrlByShortCode code w) as [[row|[]] w1]; try discriminate.
    destruct (incrementClickCount code w1) as [[[]|[]] w2] eqn:Ei;
      try discriminate.
    intros H. injection H as <- <-. now exists row, w1.
  - intros [row [w1 [-> [-> ->]]]]. reflexivity.
Qed.

Lemma default_base_has_localhost :
  env_BASE_URL = None -> includes BASE_URL "localhost" = true.
Proof.
  intros H. unfold BASE_URL. rewrite H. apply includes_split.
  now exists "http://", (":" ++ PORT).
Qed.

(** A short URL of the server's own making is refused by the shorten
    route when the base URL holds [localhost] or [azurewebsites.net], as
    the default base URL does: the answer is 400 and no call is made. *)
Theorem own_short_url_not_shortened
    (code : string) (e : option timestamp) (w : W) :
  env_BASE_URL = None \/
  includes BASE_URL "localhost" = true \/
  includes BASE_URL "azurewebsites.net" = true ->
  handle (PostShorten {| url := Some (PStr (BASE_URL ++ "/" ++ code));
                         expires_at := e |}) w
  = (Json 400 (error_json "Invalid URL"), w).
Proof.
  intros H.
  assert (Hb : includes BASE_URL "localhost" = true \/
               includes BASE_URL "azurewebsites.net" = true).
  { destruct H as [H | H]; [left; now apply default_base_has_localhost | exact H]. }
  assert (Hin : forall p, includes BASE_URL p = true ->
                          includes (BASE_URL ++ "/" ++ code) p = true).
  { intros p Hp. apply includes_split in Hp. destruct Hp as [a [b ->]].
    apply includes_split. exists a, (b ++ "/" ++ code).
    now rewrite !append_assoc. }
  cbn [handle]. rewrite shorten_cases. cbn [url].
  assert (Hv : isValidUrl (trim (BASE_URL ++ "/" ++ code)) = false).
  { unfold isValidUrl.
    destruct (URL_parses (trim (BASE_URL ++ "/" ++ code))); [|reflexivity].
    destruct Hb as [Hb | Hb].
    - rewrite (includes_trim _ "localhost" "l" "t" "ocalhost" "localhos"
                 eq_refl eq_refl eq_refl eq_refl (Hin _ Hb)). reflexivity.
    - rewrite (includes_trim _ "azurewebsites.net" "a" "t" "zurewebsites.net"
                 "azurewebsites.ne" eq_refl eq_refl eq_refl eq_refl (Hin _ Hb)).
      now rewrite orb_true_r. }
  rewrite Hv. now rewrite andb_false_r.
Qed.

End MoreRoutes.

(* ================================================================= *)
(** ** The page and the server together *)

Section PageAndServer.
Context {P : Platform} {B : Browser} {W : Type} {S : UrlService W}.

Lemma loopback_delivers : Delivers loopback.
Proof. intros req w code body w' H. unfold loopback. now rewrite H. Qed.

(** The three answers of the shorten route to a [url] that is a string. *)
Lemma shorten_answers (raw : string) (e : option timestamp) (w : W) :
  let body := {| url := Some (PStr raw); expires_at := e |} in
  (exists c, fst (handle (PostShorten body) w) = Json 200 (shortened c)) \/
  fst (handle (PostShorten body) w) = Json 400 (error_json "Invalid URL") \/
  fst (handle (PostShorten body) w) = Json 500 (error_json "Failed to shorten").
Proof.
  cbn zeta. cbn [handle]. rewrite shorten_cases. cbn [url expires_at].
  destruct (truthy (trim raw) && isValidUrl (trim raw)); [|now right; left].
  destruct (createShortUrl (trim raw) e w) as [[c|err] w'].
  - left. now exists c.
  - now right; right.
Qed.

Lemma delivered (fetch : Request -> W -> Fetch * W) (req : Request) (w : W)
    (code : Z) (body : json) :
  Delivers fetch ->
  fst (handle req w) = Json code body ->
  fetch req w = (Replied (ok code) (Parsed body), snd (handle req w)).
Proof.
  intros D H. apply D. destruct (handle req w) as [r w']. cbn in *. now subst.
Qed.

(** The page sends nothing for a blank URL or one the [URL] constructor
    refuses: whatever the network is, the other side is left as it was; the
    page shows the matching message, forgets the last result, QR code and
    stats, and keeps what was typed. *)
Theorem page_sends_nothing_for_bad_input
    (N : Type) (fetch : Request -> N -> Fetch * N) (s : App.State) (n : N) :
  truthy (trim (App.url s)) = false \/ URL_parses (App.url s) = false ->
  let s' := fst (App.handleShorten fetch s n) in
  snd (App.handleShorten fetch s n) = n /\
  App.error s' = (if truthy (trim (App.url s))
                  then "Please enter a valid URL"
                  else "Please enter a URL") /\
  App.result s' = JNull /\ App.qrCode s' = None /\
  App.stats s' = JNull /\ App.showStats s' = false /\
  App.url s' = App.url s /\ App.expiresAt s' = App.expiresAt s /\
  App.loading s' = App.loading s.
Proof.
  intros H. unfold App.handleShorten, App.isValidUrl.
  destruct (truthy (trim (App.url s))) eqn:Et; cbn [negb].
  - destruct H as [H | H]; [discriminate|]. rewrite H. cbn. tauto.
  - cbn. tauto.
Qed.

(** A URL the page lets through goes to the shorten route, trimmed and
    with the expiry typed in.  On 200 the page keeps the answer as its
    result, points the QR image at [/api/qr/] and the new code, and clears
    the form; on 400 or 500 it shows [Failed to shorten URL], has no result
    and no QR code, and keeps the form.  Either way it stops loading. *)
Theorem page_after_shorten
    (fetch : Request -> W -> Fetch * W) (s : App.State) (w : W) :
  Delivers fetch ->
  truthy (trim (App.url s)) = true ->
  URL_parses (App.url s) = true ->
  let r := handle (PostShorten {| url := Some (PStr (trim (App.url s)));
                                  expires_at := App.expiresAt s |}) w in
  let s' := fst (App.handleShorten fetch s w) in
  snd (App.handleShorten fetch s w) = snd r /\
  App.loading s' = false /\ App.stats s' = JNull /\ App.showStats s' = false /\
  ((exists c,
      fst r = Json 200 (shortened c) /\
      App.result s' = shortened c /\
      App.qrCode s' = Some (App.API_URL ++ "/api/qr/" ++ c) /\
      App.url s' = EmptyString /\ App.expiresAt s' = None /\
      App.error s' = EmptyString)
   \/
   ((status_code (fst r) = 400 \/ status_code (fst r) = 500) /\
    App.error s' = "Failed to shorten URL" /\
    App.result s' = JNull /\ App.qrCode s' = None /\
    App.url s' = App.url s /\ App.expiresAt s' = App.expiresAt s)).
Proof.
  intros D Ht Hv r s'. subst r s'.
  unfold App.handleShorten, App.isValidUrl. rewrite Ht, Hv. cbn [negb].
  destruct (shorten_answers (trim (App.url s)) (App.expiresAt s) w)
    as [[c E] | [E | E]];
    rewrite (delivered fetch _ w _ _ D E); rewrite E.
  - cbn. repeat split. left. exists c. repeat split.
  - cbn. repeat split. right. repeat split. now left.
  - cbn. repeat split. right. repeat split. now right.
Qed.

(** After the shorten button, whatever came back from this server, the
    page never takes its result for expired: the answer of the shorten
    route carries no [expires_at]. *)
Theorem page_never_shows_expired
    (fetch : Request -> W -> Fetch * W) (s : App.State) (w : W) (now : timestamp) :
  Delivers fetch ->
  App.isExpired now (fst (App.handleShorten fetch s w)) = false.
Proof.
  intros D. unfold App.handleShorten, App.isValidUrl.
  destruct (truthy (trim (App.url s))); cbn [negb]; [|reflexivity].
  destruct (URL_parses (App.url s)); cbn [negb]; [|reflexivity].
  destruct (shorten_answers (trim (App.url s)) (App.expiresAt s) w)
    as [[c E] | [E | E]];
    rewrite (delivered fetch _ w _ _ D E); reflexivity.
Qed.

(** The page checks less than the server: a URL the [URL] constructor
    takes but [isValidUrl] of the server refuses (one that holds
    [localhost], say) is sent, comes back 400 with the store untouched, and
    the page shows [Failed to shorten URL]. *)
Theorem page_lets_through_what_server_refuses
    (fetch : Request -> W -> Fetch * W) (s : App.State) (w : W) :
  Delivers fetch ->
  truthy (trim (App.url s)) = true ->
  URL_parses (App.url s) = true ->
  isValidUrl (trim (App.url s)) = false ->
  let s' := fst (App.handleShorten fetch s w) in
  fst (handle (PostShorten {| url := Some (PStr (trim (App.url s)));
                              expires_at := App.expiresAt s |}) w)
    = Json 400 (error_json "Invalid URL") /\
  snd (App.handleShorten fetch s w) = w /\
  App.error s' = "Failed to shorten URL" /\
  App.result s' = JNull /\
  App.url s' = App.url s.
Proof.
  intros D Ht Hv Hs.
  assert (E : handle (PostShorten {| url := Some (PStr (trim (App.url s)));
                                     expires_at := App.expiresAt s |}) w
              = (Json 400 (error_json "Invalid URL"), w)).
  { cbn [handle]. rewrite shorten_cases. cbn [url].
    rewrite trim_idem, Hs. now rewrite andb_false_r. }
  unfold App.handleShorten, App.isValidUrl. rewrite Ht, Hv. cbn [negb].
  rewrite (D _ _ _ _ _ E), E. cbn. repeat split.
Qed.

(** The stats button does nothing without a result.  With one, it asks
    the stats route for the result's [short_code]: a row comes back as the
    page's stats, shown; a failure of the service becomes
    [Failed to fetch stats], and the stats on the page stay as they
    were. *)
Theorem page_stats
    (fetch : Request -> W -> Fetch * W) (s : App.State) (w : W) :
  Delivers fetch ->
  let code := template (get_field "short_code" (App.result s)) in
  let s' := fst (App.handleGetStats fetch s w) in
  if json_truthy (App.result s) then
    snd (App.handleGetStats fetch s w) = snd (getUrlStats code w) /\
    match fst (getUrlStats code w) with
    | Ok row =>
        App.stats s' = stats_json row /\ App.showStats s' = true /\
        App.error s' = App.error s
    | Err _ =>
        App.error s' = "Failed to fetch stats" /\
        App.stats s' = App.stats s /\ App.showStats s' = App.showStats s
    end
  else App.handleGetStats fetch s w = (s, w).
Proof.
  intros D code s'. subst s'. unfold App.handleGetStats. fold code.
  destruct (json_truthy (App.result s)); cbn [negb]; [|reflexivity].
  pose proof (D (GetStats code) w) as Dq. cbn [handle] in Dq.
  rewrite stats_cases in Dq.
  destruct (getUrlStats code w) as [[row|err] w'].
  - rewrite (Dq _ _ _ eq_refl). cbn. repeat split.
  - rewrite (Dq _ _ _ eq_refl). cbn. repeat split.
Qed.

(** When the page holds a result after the shorten button, its QR image
    points at [/api/qr/] and the code of that result, the QR route draws
    for that code exactly the short URL the page shows, and the copy button
    puts the same short URL on the clipboard. *)
Theorem page_qr_matches_link
    (fetch : Request -> W -> Fetch * W) (s : App.State) (w : W) :
  Delivers fetch ->
  let s' := fst (App.handleShorten fetch s w) in
  json_truthy (App.result s') = true ->
  exists c,
    App.qrCode s' = Some (App.API_URL ++ "/api/qr/" ++ c) /\
    App.copyToClipboard s' = Some (BASE_URL ++ "/" ++ c, "Copied to clipboard!") /\
    forall w2, fst (handle (GetQr c) w2)
               = QrPng "image/png" (BASE_URL ++ "/" ++ c) 256 1.
Proof.
  intros D s'. subst s'. unfold App.handleShorten, App.isValidUrl.
  destruct (truthy (trim (App.url s))); cbn [negb]; [|discriminate].
  destruct (URL_parses (App.url s)); cbn [negb]; [|discriminate].
  destruct (shorten_answers (trim (App.url s)) (App.expiresAt s) w)
    as [[c E] | [E | E]];
    rewrite (delivered fetch _ w _ _ D E); cbn; try discriminate.
  intros _. exists c. repeat split.
Qed.

End PageAndServer.

(* ================================================================= *)
(** ** More on the redirect route and on the page *)

Section MoreComposition.
Context {P : Platform} {B : Browser} {W : Type} {S : UrlService W}.

(** The redirect route answers 410 only for an error marked expired, from
    the lookup or from the click count, and then shows that error's
    instant; every other error from either call, a failure of the store
    included, is answered 404 with the not-found page. *)
Theorem redirect_gone_only_when_expired (code : string) (w : W) :
  (status_code (fst (handle (GetShortCode code) w)) = 410 <->
   exists t,
     fst (handle (GetShortCode code) w) = Html 410 (expired_page t) /\
     (fst (getUrlByShortCode code w) = Err (Expired t) \/
      exists row w1,
        getUrlByShortCode code w = (Ok row, w1) /\
        fst (incrementClickCount code w1) = Err (Expired t))) /\
  (forall err,
     (fst (getUrlByShortCode code w) = Err err \/
      exists row w1,
        getUrlByShortCode code w = (Ok row, w1) /\
        fst (incrementClickCount code w1) = Err err) ->
     fst (handle (GetShortCode code) w) =
       match err with
       | Expired t => Html 410 (expired_page t)
       | _ => Html 404 not_found_page
       end).
Proof.
  cbn [handle]. rewrite redirect_cases. split; [split|].
  - destruct (getUrlByShortCode code w) as [[row|[|t|cause]] w1] eqn:E;
      try discriminate.
    + destruct (incrementClickCount code w1) as [[u|[|t|cause]] w2] eqn:Ei;
        try discriminate.
      intros _. exists t. split; [reflexivity|]. right.
      exists row, w1. now rewrite Ei.
    + intros _. exists t. split; [reflexivity | now left].
  - intros [t [_ [H | [row [w1 [H1 H2]]]]]].
    + destruct (getUrlByShortCode code w) as [r w1]. cbn in H. now subst r.
    + rewrite H1. destruct (incrementClickCount code w1) as [r w2].
      cbn in H2. now subst r.
  - intros err [H | [row [w1 [H1 H2]]]].
    + destruct (getUrlByShortCode code w) as [r w1]. cbn in H. subst r.
      now destruct err.
    + rewrite H1. destruct (incrementClickCount code w1) as [r w2].
      cbn in H2. subst r. now destruct err.
Qed.

(** Once a request has left the page, the page stops loading; it shows no
    error exactly when the reply was ok and its body parsed, and then holds
    that body as its result with the URL field cleared; after any other
    reply it shows a message that is not empty, holds no result and no QR
    code, and keeps the URL typed in. *)
Theorem page_reports_every_failure
    (N : Type) (fetch : Request -> N -> Fetch * N) (s : App.State) (n : N) :
  truthy (trim (App.url s)) = true ->
  URL_parses (App.url s) = true ->
  let reply := fst (fetch (PostShorten {| url := Some (PStr (trim (App.url s)));
                                          expires_at := App.expiresAt s |}) n) in
  let s' := fst (App.handleShorten fetch s n) in
  App.loading s' = false /\
  match reply with
  | Replied true (Parsed data) =>
      App.error s' = EmptyString /\ App.result s' = data /\
      App.url s' = EmptyString
  | _ =>
      truthy (App.error s') = true /\ App.result s' = JNull /\
      App.qrCode s' = None /\ App.url s' = App.url s
  end.
Proof.
  intros Ht Hv reply s'. subst reply s'.
  unfold App.handleShorten, App.isValidUrl. rewrite Ht, Hv. cbn [negb].
  destruct (fetch _ n) as [[m | [|] [data | m]] n']; cbn [fst].
  - cbn. unfold App.message_or_default. now destruct (truthy m) eqn:E.
  - destruct data; cbn; repeat split.
  - cbn. unfold App.message_or_default. now destruct (truthy m) eqn:E.
  - cbn. repeat split.
  - cbn. repeat split.
Qed.

(** What is typed into the page reaches the service once: when both the
    page and the server take the URL, the world after the shorten button is
    the one [createShortUrl] leaves when called on the trimmed URL and the
    expiry of the form; its code becomes the page's result and QR address,
    its rejection the page's [Failed to shorten URL]. *)
Theorem page_hands_form_to_service
    (fetch : Request -> W -> Fetch * W) (s : App.State) (w : W) :
  Delivers fetch ->
  truthy (trim (App.url s)) = true ->
  URL_parses (App.url s) = true ->
  isValidUrl (trim (App.url s)) = true ->
  let call := createShortUrl (trim (App.url s)) (App.expiresAt s) w in
  let s' := fst (App.handleShorten fetch s w) in
  snd (App.handleShorten fetch s w) = snd call /\
  match fst call with
  | Ok c =>
      App.result s' = shortened c /\
      App.qrCode s' = Some (App.API_URL ++ "/api/qr/" ++ c)
  | Err _ =>
      App.error s' = "Failed to shorten URL" /\ App.result s' = JNull
  end.
Proof.
  intros D Ht Hv Hs call s'. subst call s'.
  pose proof (D (PostShorten {| url := Some (PStr (trim (App.url s)));
                                expires_at := App.expiresAt s |}) w) as Dq.
  cbn [handle] in Dq. rewrite shorten_cases in Dq. cbn [url expires_at] in Dq.
  rewrite trim_idem, Ht, Hs in Dq. cbn [andb] in Dq.
  unfold App.handleShorten, App.isValidUrl. rewrite Ht, Hv. cbn [negb].
  destruct (createShortUrl (trim (App.url s)) (App.expiresAt s) w)
    as [[c|err] w'].
  - rewrite (Dq _ _ _ eq_refl). cbn. repeat split.
  - rewrite (Dq _ _ _ eq_refl). cbn. repeat split.
Qed.

End MoreComposition.

(* ================================================================= *)
(** ** The theorems at work on the example deployments *)

Ltac by_running := vm_compute; reflexivity.
Ltac all_by_running :=
  repeat match goal with |- _ /\ _ => split end; by_running.

Lemma expired_link_is_gone_witness :
  (db_up expired_world = true /\
   find_by_code "abc123" (table expired_world)
     = Some (example_link (Some 2000) 0) /\
   2000 < now expired_world) /\
  @handle development _ _ (GetShortCode "abc123") expired_world
    = (Html 410 (@expired_page development 2000), expired_world) /\
  clicks "abc123" (@step development (Call (GetShortCode "abc123")) expired_world)
    = Some 0.
Proof.
  pose proof (@expired_link_is_gone development expired_world "abc123"
                (example_link (Some 2000) 0) 2000
                ltac:(by_running) ltac:(by_running) ltac:(by_running)
                ltac:(by_running)) as [_ [H [_ [K _]]]].
  split; [all_by_running|]. split; [exact H | exact K].
Defined.

Lemma stats_is_a_plain_snapshot_witness :
  db_up expired_world = true /\
  @handle development _ _ (GetStats "abc123") expired_world
    = (Json 200 (JObj [("short_code", JStr "abc123");
                       ("original_url", JStr "https://example.com/a/b");
                       ("click_count", JNum 0);
                       ("created_at", JDate 1000);
                       ("expires_at", JDate 2000)]), expired_world).
Proof.
  pose proof (@stats_is_a_plain_snapshot development expired_world "abc123"
                ltac:(by_running)) as H.
  vm_compute in H. destruct H as [H _].
  split; [by_running|]. vm_compute. exact H.
Defined.

Lemma shorten_reports_short_url_witness :
  @handle development _ _ (PostShorten (example_body None)) fresh_world
    = (Json 200 (@shortened development "abc123"), created_world) /\
  exists short_code short_url,
    Json 200 (@shortened development "abc123")
      = Json 200 (JObj [("short_url", JStr short_url);
                        ("short_code", JStr short_code)]) /\
    get_field "short_code" (JObj [("short_url", JStr short_url);
                                  ("short_code", JStr short_code)])
      = Some (JStr short_code) /\
    short_url = @BASE_URL development ++ "/" ++ short_code.
Proof.
  split; [by_running|].
  exact (@shorten_reports_short_url development World link_service
           (example_body None) fresh_world created_world
           (Json 200 (@shortened development "abc123"))
           ltac:(by_running) ltac:(by_running)).
Defined.

Lemma shorten_without_url_rejected_witness :
  trim "   " = EmptyString /\
  @handle development _ _
    (PostShorten {| url := Some (PStr "   "); expires_at := Some 2000 |})
    fresh_world
    = (Json 400 (error_json "Invalid URL"), fresh_world).
Proof.
  split; [by_running|].
  exact (@shorten_without_url_rejected development World link_service
           {| url := Some (PStr "   "); expires_at := Some 2000 |} fresh_world
           ltac:(by_running)).
Defined.

Lemma unparsable_or_blocklisted_url_rejected_witness :
  (includes (trim "http://localhost:5000/abc123") (@BASE_URL development) = true /\
   includes (@BASE_URL development) "localhost" = true) /\
  @handle development _ _
    (PostShorten {| url := Some (PStr "http://localhost:5000/abc123");
                    expires_at := None |}) fresh_world
    = (Json 400 (error_json "Invalid URL"), fresh_world).
Proof.
  split; [all_by_running|].
  apply (@unparsable_or_blocklisted_url_rejected development World link_service
           "http://localhost:5000/abc123" None fresh_world).
  right; right; right. split; [by_running | left; by_running].
Defined.

Lemma store_failure_by_route_witness :
  @handle development unit (outage "ECONNREFUSED")
    (PostShorten {| url := Some (PStr example_url); expires_at := None |}) tt
    = (Json 500 (error_json "Failed to shorten"), tt) /\
  @handle development unit (outage "ECONNREFUSED") (GetStats "abc123") tt
    = (Json 404 (error_json "Not found"), tt) /\
  @handle development unit (outage "ECONNREFUSED") (GetShortCode "abc123") tt
    = (Html 404 (@not_found_page), tt) /\
  @handle development unit (outage "ECONNREFUSED") GetDebugUrls tt
    = (Json 500 (error_json "ECONNREFUSED"), tt).
Proof.
  destruct (@store_failure_by_route development unit (outage "ECONNREFUSED") tt)
    as [A [B [C [_ D]]]].
  split; [|split; [|split]].
  - apply (A example_url None (StoreFailure "ECONNREFUSED") tt); by_running.
  - apply (B "abc123" (StoreFailure "ECONNREFUSED") tt). by_running.
  - apply (C "abc123" (StoreFailure "ECONNREFUSED") tt);
      [intros t; discriminate | by_running].
  - apply (D "ECONNREFUSED" tt). by_running.
Defined.

Lemma click_count_counts_redirects_witness :
  (@handle development _ _ (PostShorten (example_body None)) fresh_world
     = (Json 200 (@shortened development "abc123"), created_world) /\
   find_by_code "abc123" (table fresh_world) = None) /\
  let evs := [Call (GetShortCode "abc123"); Call (GetShortCode "nope");
              Environment 5000 false nil; Call (GetShortCode "abc123");
              Environment 6000 true nil; Call (GetShortCode "abc123")] in
  clicks "abc123" created_world = Some 0 /\
  clicks "abc123" (@run development evs created_world) = Some 2 /\
  clicks "abc123"
    (@step development (Call (GetShortCode "abc123"))
       (@run development evs created_world)) = Some 3.
Proof.
  split; [all_by_running|]. intros evs.
  pose proof (@click_count_counts_redirects development fresh_world created_world
                "  https://example.com/a/b " None "abc123" evs
                (Call (GetShortCode "abc123"))
                ltac:(by_running) ltac:(by_running)) as H.
  vm_compute in H. destruct H as [A [Bq [_ [C _]]]].
  vm_compute. split; [exact A|]. split; [exact Bq | exact C].
Defined.

Lemma second_create_returns_same_code_witness :
  let between := [Call (GetShortCode "abc123"); Environment 7000 true nil] in
  let w2 := @run development between created_world in
  (@handle development _ _ (PostShorten (example_body None)) fresh_world
     = (Json 200 (@shortened development "abc123"), created_world) /\
   trim "https://example.com/a/b" = trim "  https://example.com/a/b " /\
   db_up w2 = true) /\
  @handle development _ _
    (PostShorten {| url := Some (PStr "https://example.com/a/b");
                    expires_at := Some 7001 |}) w2
    = (Json 200 (@shortened development "abc123"), w2) /\
  count_url example_url (table w2) = 1%nat.
Proof.
  intros between w2. split; [all_by_running|].
  pose proof (@second_create_returns_same_code development nil 1000 true
                ["abc123"; "xyz789"] "  https://example.com/a/b "
                "https://example.com/a/b" None (Some 7001) "abc123"
                created_world between
                ltac:(by_running) ltac:(by_running) ltac:(by_running)) as H.
  vm_compute in H. destruct H as [A [Bq _]].
  vm_compute. split; [exact A | exact Bq].
Defined.

Lemma round_trip_without_expiration_witness :
  (db_up fresh_world = true /\
   truthy (trim "  https://example.com/a/b ") = true /\
   @isValidUrl development (trim "  https://example.com/a/b ") = true) /\
  exists c w1,
    @handle development _ _ (PostShorten (example_body None)) fresh_world
      = (Json 200 (@shortened development c), w1) /\
    exists r,
      getUrlByShortCode c (@run development [Environment 999999 true nil] w1)
        = (Ok r, @run development [Environment 999999 true nil] w1) /\
      originalUrl r = example_url.
Proof.
  split; [all_by_running|].
  assert (Hs : find_by_url (trim "  https://example.com/a/b ") (table fresh_world)
               = None ->
               exists c, In c (shortid fresh_world) /\
                         find_by_code c (table fresh_world) = None).
  { intros _. exists "abc123". split; [left; reflexivity | by_running]. }
  assert (Hn : forall r0,
             find_by_url (trim "  https://example.com/a/b ") (table fresh_world)
               = Some r0 -> expiresAt r0 = None).
  { intros r0 H. vm_compute in H. discriminate. }
  destruct (@round_trip_without_expiration development nil 1000 true
              ["abc123"; "xyz789"] "  https://example.com/a/b "
              [Environment 999999 true nil]
              ltac:(by_running) ltac:(by_running) ltac:(by_running) Hn Hs)
    as [c [w1 [C [A D]]]].
  exists c, w1. split; [exact A|].
  assert (E : w1 = created_world /\ c = "abc123").
  { vm_compute in C. injection C as Hc Hw. split; [exact (eq_sym Hw) | exact (eq_sym Hc)]. }
  destruct E as [-> ->].
  destruct (D ltac:(by_running)) as [r [R [U _]]].
  exists r. split; [exact R|]. vm_compute in U. vm_compute. exact U.
Defined.

(* ================================================================= *)
(** ** Where the code departs from the specification *)

(** With the store down, the stats route and the redirect route answer 404,
    and the debug route hands the driver's message to the caller. *)
Lemma store_failure_answered_404 :
  @getUrlStats unit (outage "ECONNREFUSED") "abc123" tt
    = (Err (StoreFailure "ECONNREFUSED"), tt) /\
  status_code
    (fst (@handle development unit (outage "ECONNREFUSED") (GetStats "abc123") tt))
    = 404 /\
  @getUrlByShortCode unit (outage "ECONNREFUSED") "abc123" tt
    = (Err (StoreFailure "ECONNREFUSED"), tt) /\
  status_code
    (fst (@handle development unit (outage "ECONNREFUSED") (GetShortCode "abc123") tt))
    = 404 /\
  fst (@handle development unit (outage "ECONNREFUSED") GetDebugUrls tt)
    = Json 500 (JObj [("error", JStr "ECONNREFUSED")]).
Proof. all_by_running. Qed.

(** Behind its own domain the server shortens a URL of its own host. *)
Lemma own_host_accepted_behind_custom_domain :
  @BASE_URL custom_domain = "https://sho.rt" /\
  prefix (@BASE_URL custom_domain) "https://sho.rt/abc123" = true /\
  @handle custom_domain _ _
    (PostShorten {| url := Some (PStr "https://sho.rt/abc123");
                    expires_at := None |})
    fresh_world
    = (Json 200 (JObj [("short_url", JStr "https://sho.rt/abc123");
                       ("short_code", JStr "abc123")]),
       {| table := [{| shortCode := "abc123";
                       originalUrl := "https://sho.rt/abc123";
                       createdAt := 1000; expiresAt := None;
                       clickCount := 0 |}];
          now := 1000; shortid := ["xyz789"]; db_up := true |}).
Proof. all_by_running. Qed.

(** Why the round trip asks that the stored record have no expiration: a
    link made to expire at 2000 and posted again at 3000 without one keeps
    its old code and its old expiration, and that code is gone. *)
Lemma round_trip_broken_by_expired_record :
  @run development
     [Call (PostShorten (example_body (Some 2000)));
      Environment 3000 true ["xyz789"]] fresh_world = expired_world /\
  @handle development _ _ (PostShorten (example_body None)) expired_world
    = (Json 200 (@shortened development "abc123"), expired_world) /\
  @handle development _ _ (GetShortCode "abc123") expired_world
    = (Html 410 (@expired_page development 2000), expired_world).
Proof. all_by_running. Qed.

(* ================================================================= *)
(** ** The page and the routes on the example deployment *)

Lemma route_status_codes_witness :
  @crashes {| url := Some (PNum 123 0); expires_at := None |} = true /\
  @handle development _ _
    (PostShorten {| url := Some (PNum 123 0); expires_at := None |}) fresh_world
    = (Html 500 (@error_page development "url.trim is not a function"),
       fresh_world).
Proof.
  split; [by_running|].
  exact (proj2 (proj2 (@route_status_codes development World link_service
           (PostShorten {| url := Some (PNum 123 0); expires_at := None |})
           fresh_world)) ltac:(by_running)).
Defined.

Lemma shorten_blames_input_or_service_witness :
  @accepted_url development (example_body None) = Some example_url /\
  snd (@handle development _ _ (PostShorten (example_body None)) fresh_world)
    = snd (createShortLink example_url None fresh_world) /\
  status_code
    (fst (@handle development _ _
            (PostShorten {| url := Some (PArr nil); expires_at := None |})
            expired_world)) = 500.
Proof.
  split; [by_running|]. split.
  - exact (proj1 (proj2 (proj2 (proj2 (@shorten_blames_input_or_service
             development World link_service (example_body None) fresh_world)))
             example_url ltac:(by_running))).
  - exact (proj1 (proj2 (proj2 (@shorten_blames_input_or_service development
             World link_service
             {| url := Some (PArr nil); expires_at := None |} expired_world)))
             ltac:(by_running)).
Defined.

Lemma redirect_needs_lookup_and_count_witness :
  @handle development _ _ (GetShortCode "abc123") created_world
    = (Redirect example_url,
       with_table [example_link None 1] created_world) /\
  exists row w1,
    getUrlByShortCode "abc123" created_world = (Ok row, w1) /\
    incrementClickCount "abc123" w1
      = (Ok tt, with_table [example_link None 1] created_world) /\
    example_url = originalUrl row.
Proof.
  split; [by_running|].
  apply (proj1 (@redirect_needs_lookup_and_count development World link_service
                  "abc123" example_url created_world
                  (with_table [example_link None 1] created_world))).
  by_running.
Defined.

Lemma redirect_gone_only_when_expired_witness :
  fst (getUrlByShortCode "nope" created_world) = Err NotFound /\
  fst (@handle development _ _ (GetShortCode "nope") created_world)
    = Html 404 not_found_page.
Proof.
  split; [by_running|].
  apply (proj2 (@redirect_gone_only_when_expired development World link_service
                  "nope" created_world) NotFound).
  left. by_running.
Defined.

Lemma own_short_url_not_shortened_witness :
  @env_BASE_URL development = None /\
  @handle development _ _
    (PostShorten {| url := Some (PStr (@BASE_URL development ++ "/" ++ "abc123"));
                    expires_at := None |}) created_world
    = (Json 400 (error_json "Invalid URL"), created_world).
Proof.
  split; [by_running|].
  apply (@own_short_url_not_shortened development World link_service
           "abc123" None created_world).
  left; by_running.
Defined.

Lemma page_sends_nothing_for_bad_input_witness :
  truthy (trim (App.url (typed "   " None))) = false /\
  snd (press_shorten (typed "   " None) fresh_world) = fresh_world /\
  App.error (fst (press_shorten (typed "   " None) fresh_world))
    = "Please enter a URL".
Proof.
  split; [by_running|].
  pose proof (@page_sends_nothing_for_bad_input development example_browser
                World example_fetch (typed "   " None) fresh_world) as H.
  assert (Hb : truthy (trim (App.url (typed "   " None))) = false) by by_running.
  specialize (H (or_introl Hb)).
  vm_compute in H. destruct H as [A [E _]].
  vm_compute. split; [exact A | exact E].
Defined.

Lemma page_after_shorten_witness :
  let s := typed "https://example.com/a/b" (Some 2000) in
  (truthy (trim (App.url s)) = true /\ @URL_parses development (App.url s) = true) /\
  App.loading (fst (press_shorten s fresh_world)) = false /\
  App.stats (fst (press_shorten s fresh_world)) = JNull.
Proof.
  intros s. split; [all_by_running|].
  pose proof (@page_after_shorten development example_browser World link_service
                example_fetch s fresh_world
                (@loopback_delivers development World link_service)
                ltac:(by_running) ltac:(by_running)) as H.
  vm_compute in H. destruct H as [_ [L [T _]]].
  vm_compute. split; [exact L | exact T].
Defined.

Lemma page_never_shows_expired_witness :
  let s := typed "https://example.com/a/b" (Some 2000) in
  App.expiresAt s = Some 2000 /\
  @App.isExpired example_browser 3000 (fst (press_shorten s fresh_world)) = false.
Proof.
  intros s. split; [by_running|].
  exact (@page_never_shows_expired development example_browser World
           link_service example_fetch s fresh_world 3000
           (@loopback_delivers development World link_service)).
Defined.

Lemma page_lets_through_what_server_refuses_witness :
  let s := typed "http://localhost:3000/page" None in
  (@App.isValidUrl development (App.url s) = true /\
   @isValidUrl development (trim (App.url s)) = false) /\
  snd (press_shorten s fresh_world) = fresh_world /\
  App.error (fst (press_shorten s fresh_world)) = "Failed to shorten URL".
Proof.
  intros s. split; [all_by_running|].
  pose proof (@page_lets_through_what_server_refuses development example_browser
                World link_service example_fetch s fresh_world
                (@loopback_delivers development World link_service)
                ltac:(by_running) ltac:(by_running) ltac:(by_running)) as H.
  vm_compute in H. destruct H as [_ [A [E _]]].
  vm_compute. split; [exact A | exact E].
Defined.

Lemma page_stats_witness :
  press_stats App.initial created_world = (App.initial, created_world).
Proof.
  pose proof (@page_stats development example_browser World link_service
                example_fetch App.initial created_world
                (@loopback_delivers development World link_service)) as H.
  vm_compute in H. vm_compute. exact H.
Defined.

Lemma page_qr_matches_link_witness :
  let s' := fst (press_shorten (typed example_url None) fresh_world) in
  json_truthy (App.result s') = true /\
  exists c,
    App.qrCode s' = Some (@App.API_URL example_browser ++ "/api/qr/" ++ c) /\
    @App.copyToClipboard example_browser s'
      = Some (@BASE_URL development ++ "/" ++ c, "Copied to clipboard!") /\
    forall w2 : World,
      fst (@handle development _ _ (GetQr c) w2)
      = QrPng "image/png" (@BASE_URL development ++ "/" ++ c) 256 1.
Proof.
  intros s'. split; [by_running|].
  exact (@page_qr_matches_link development example_browser World link_service
           example_fetch (typed example_url None) fresh_world
           (@loopback_delivers development World link_service)
           ltac:(by_running)).
Defined.

Lemma page_reports_every_failure_witness :
  let s := typed "https://example.com/a/b" None in
  let down := Environment 1000 false nil in
  (truthy (trim (App.url s)) = true /\ @URL_parses development (App.url s) = true) /\
  App.loading (fst (press_shorten s (@step development down fresh_world))) = false.
Proof.
  intros s down. split; [all_by_running|].
  exact (proj1 (@page_reports_every_failure development example_browser World
                  example_fetch s (@step development down fresh_world)
                  ltac:(by_running) ltac:(by_running))).
Defined.

Lemma page_hands_form_to_service_witness :
  let s := typed "https://example.com/a/b" (Some 2000) in
  (truthy (trim (App.url s)) = true /\
   @URL_parses development (App.url s) = true /\
   @isValidUrl development (trim (App.url s)) = true) /\
  snd (press_shorten s fresh_world)
    = snd (createShortUrl (trim (App.url s)) (App.expiresAt s) fresh_world).
Proof.
  intros s. split; [all_by_running|].
  exact (proj1 (@page_hands_form_to_service development example_browser World
                  link_service example_fetch s fresh_world
                  (@loopback_delivers development World link_service)
                  ltac:(by_running) ltac:(by_running) ltac:(by_running))).
Defined.
